(** * forage.parser: timestamp, identifier and reaction parsing, record
      extraction and the comment filter

    A shallow embedding of [src/forage/parser.py].  Python strings are
    sequences of Unicode code points, Python integers are unbounded, the
    functions that can raise run in an exception monad, and the comment
    objects that [filter_comments] updates in place live in a store. *)

From Stdlib Require Import ZArith NArith List Bool Lia String Ascii.
From Stdlib Require Import Decimal DecimalString DecimalZ.
From stdpp Require Import base option list sorting gmap.

Local Open Scope N_scope.

(** ** Strings *)

(** A Python [str] is a sequence of code points. *)
Abbreviation char := N.
Abbreviation str := (list N).

(** An ASCII literal of the source. *)
Definition py (s : string) : str := map N_of_ascii (list_ascii_of_string s).

(** A one-character ASCII literal, and the characters that a Rocq string
    does not spell: the line feed, the tab, the carriage return and the
    double quote. *)
Definition ch (s : string) : char := hd 0 (py s).
Definition LF : char := 10.
Definition TAB : char := 9.
Definition CR : char := 13.
Definition QUOTE : char := 34.

(** [str.isspace] of one character, which is also the class [\s] of [re] on
    [str] patterns (Unicode 14, the table of CPython 3.11). *)
Definition isspace (c : char) : bool :=
  ((9 <=? c) && (c <=? 13)) || ((28 <=? c) && (c <=? 32))
  || (c =? 133) || (c =? 160) || (c =? 5760)
  || ((8192 <=? c) && (c <=? 8202))
  || (c =? 8232) || (c =? 8233) || (c =? 8239) || (c =? 8287) || (c =? 12288).

(** The decimal digits (category Nd): each entry is the code point of a zero
    and the length of the run that starts there; a run counts 0 to 9 and
    starts over every ten code points. *)
Definition decimal_runs : list (N * N) :=
  [ (48, 10); (1632, 10); (1776, 10); (1984, 10); (2406, 10); (2534, 10);
    (2662, 10); (2790, 10); (2918, 10); (3046, 10); (3174, 10); (3302, 10);
    (3430, 10); (3558, 10); (3664, 10); (3792, 10); (3872, 10); (4160, 10);
    (4240, 10); (6112, 10); (6160, 10); (6470, 10); (6608, 10); (6784, 10);
    (6800, 10); (6992, 10); (7088, 10); (7232, 10); (7248, 10); (42528, 10);
    (43216, 10); (43264, 10); (43472, 10); (43504, 10); (43600, 10);
    (44016, 10); (65296, 10); (66720, 10); (68912, 10); (69734, 10);
    (69872, 10); (69942, 10); (70096, 10); (70384, 10); (70736, 10);
    (70864, 10); (71248, 10); (71360, 10); (71472, 10); (71904, 10);
    (72016, 10); (72784, 10); (73040, 10); (73120, 10); (92768, 10);
    (92864, 10); (93008, 10); (120782, 50); (123200, 10); (123632, 10);
    (125264, 10); (130032, 10) ].

(** The other characters for which [str.isdigit] holds (superscripts,
    circled digits and the like): first code point and length of each run. *)
Definition other_digit_runs : list (N * N) :=
  [ (178, 2); (185, 1); (4969, 9); (6618, 1); (8304, 1); (8308, 6);
    (8320, 10); (9312, 9); (9332, 9); (9352, 9); (9450, 1); (9461, 9);
    (9471, 1); (10102, 9); (10112, 9); (10122, 9); (68160, 4); (69216, 9);
    (69714, 9); (127232, 11) ].

Definition in_run (c : char) (r : N * N) : bool :=
  (fst r <=? c) && (c <? fst r + snd r).

(** The value of a decimal digit. *)
Definition digit_value (c : char) : option N :=
  match find (in_run c) decimal_runs with
  | Some r => Some ((c - fst r) mod 10)
  | None => None
  end.

(** The class [\d] of [re] on [str] patterns. *)
Definition isdecimal (c : char) : bool := existsb (in_run c) decimal_runs.

(** [str.isdigit] of one character. *)
Definition isdigit (c : char) : bool :=
  isdecimal c || existsb (in_run c) other_digit_runs.

(** [int(s)] of a run of decimal digits.  Python integers are unbounded; the
    interpreter's configurable cap on the length of the digit string
    ([sys.set_int_max_str_digits]) is a setting of the runtime and not part
    of the conversion. *)
Definition int (s : str) : Z :=
  fold_left (fun acc c => 10 * acc + Z.of_N (default 0%N (digit_value c)))%Z s 0%Z.

(** [str(n)] of an integer, as an f-string formats it. *)
Definition str_of_int (n : Z) : str := py (NilEmpty.string_of_int (Z.to_int n)).

Definition is_upper_ascii (c : char) : bool := (65 <=? c) && (c <=? 90).
Definition is_lower_ascii (c : char) : bool := (97 <=? c) && (c <=? 122).

(** [str.lower].  An ASCII capital becomes its small letter, U+0130 becomes
    "i" followed by U+0307, and the Kelvin sign U+212A becomes "k".  Every
    other code point above 127 lowercases to code points above 127 that are
    neither digits nor white space; it is left as it is, which no test of
    this module on a lowercased string tells apart. *)
Definition lower_char (c : char) : str :=
  if is_upper_ascii c then [c + 32]
  else if c =? 304 then [105; 775]
  else if c =? 8490 then [107]
  else [c].

Definition lower (s : str) : str := flat_map lower_char s.

(** Equality of characters under [re.IGNORECASE], for a pattern letter [l]:
    the two ASCII cases and, for "i", "k" and "s", the extra code points
    U+0130 and U+0131, U+212A, and U+017F. *)
Definition ieq (l c : char) : bool :=
  let fold x := if is_upper_ascii x then x + 32 else x in
  (fold c =? fold l)
  || ((fold l =? 105) && ((c =? 304) || (c =? 305)))
  || ((fold l =? 107) && (c =? 8490))
  || ((fold l =? 115) && (c =? 383)).

Definition str_eqb (a b : str) : bool := bool_decide (a = b).

(** [s.startswith(p)] *)
Fixpoint startswith (s p : str) : bool :=
  match p, s with
  | [], _ => true
  | x :: p', y :: s' => (x =? y) && startswith s' p'
  | _ :: _, [] => false
  end.

(** [p in s] for strings. *)
Fixpoint contains (s p : str) : bool :=
  startswith s p || match s with [] => false | _ :: s' => contains s' p end.

(** [s.lstrip()], [s.rstrip()] and [s.strip()]. *)
Fixpoint lstrip (s : str) : str :=
  match s with
  | c :: s' => if isspace c then lstrip s' else s
  | [] => []
  end.

Definition rstrip (s : str) : str := rev (lstrip (rev s)).
Definition strip (s : str) : str := rstrip (lstrip s).

(** [s.replace(old, new)] for a one-character [old]. *)
Definition replace (old : char) (new : str) (s : str) : str :=
  flat_map (fun c => if c =? old then new else [c]) s.

(** [s.split(sep)] for a one-character separator: never an empty list. *)
Fixpoint split (sep : char) (s : str) : list str :=
  match s with
  | [] => [[]]
  | c :: s' =>
      if c =? sep then [] :: split sep s'
      else match split sep s' with
           | w :: ws => (c :: w) :: ws
           | [] => [[c]]
           end
  end.

(** [s.split(sep, 1)] for a one-character separator: one piece when the
    separator does not occur, two otherwise. *)
Fixpoint split1 (sep : char) (s : str) : str * option str :=
  match s with
  | [] => ([], None)
  | c :: s' =>
      if c =? sep then ([], Some s')
      else let '(a, b) := split1 sep s' in (c :: a, b)
  end.

(** [sep.join(parts)] *)
Fixpoint join (sep : str) (parts : list str) : str :=
  match parts with
  | [] => []
  | [p] => p
  | p :: ps => p ++ sep ++ join sep ps
  end.

(** ** Exceptions *)

Inductive exn : Set :=
| ValueError
| OverflowError
| PlaywrightError.

Inductive exc (A : Type) : Type :=
| Ok (a : A)
| Raise (e : exn).
Arguments Ok {A} a.
Arguments Raise {A} e.

#[global] Instance exc_ret : MRet exc := @Ok.
#[global] Instance exc_bind : MBind exc :=
  fun A B f m => match m with Ok a => f a | Raise e => Raise e end.
#[global] Instance exc_fmap : FMap exc :=
  fun A B f m => match m with Ok a => Ok (f a) | Raise e => Raise e end.

(** [try: body except Exception: return None] at the end of an extractor. *)
Definition try_or_none {A} (body : exc (option A)) : option A :=
  match body with
  | Ok r => r
  | Raise _ => None
  end.

(** ** Regular expressions

    The fragment of [re] that the module's patterns use, matched the way
    [re] does it: by backtracking, alternatives from left to right, greedy
    repetition.  Repetition is over a character class, which is all the
    patterns of this module repeat. *)

Inductive regex : Type :=
| Eps
| Chr (p : char -> bool)
| Seq (r1 r2 : regex)
| Alt (r1 r2 : regex)
| Star (p : char -> bool)
| Opt (r : regex)
| Group (r : regex)
| Eos.

Section Matcher.
Context {R : Type}.

(** Greedy [p*]: take as many characters as possible and give back one at
    a time while the continuation fails. *)
Fixpoint star_loop (p : char -> bool) (k : str -> option R) (s : str) : option R :=
  match s with
  | c :: s' =>
      if p c then
        match star_loop p k s' with
        | Some x => Some x
        | None => k s
        end
      else k s
  | [] => k s
  end.

(** [rmatch r s g k]: match [r] at the start of [s] with the groups [g]
    closed so far, and continue with what is left. *)
Fixpoint rmatch (r : regex) (s : str) (g : list str)
    (k : str -> list str -> option R) : option R :=
  match r with
  | Eps => k s g
  | Chr p =>
      match s with
      | c :: s' => if p c then k s' g else None
      | [] => None
      end
  | Seq r1 r2 => rmatch r1 s g (fun s' g' => rmatch r2 s' g' k)
  | Alt r1 r2 =>
      match rmatch r1 s g k with
      | Some x => Some x
      | None => rmatch r2 s g k
      end
  | Star p => star_loop p (fun s' => k s' g) s
  | Opt r1 =>
      match rmatch r1 s g k with
      | Some x => Some x
      | None => k s g
      end
  | Group r1 =>
      rmatch r1 s g
        (fun s' g' => k s' (g' ++ [take (length s - length s') s]))
  | Eos =>
      (* [$]: at the end, or before a newline that ends the string *)
      match s with
      | [] => k s g
      | [10] => k s g (* 10 is the line feed *)
      | _ => None
      end
  end.
End Matcher.

(** A match object: [group(0)], the numbered groups, and the text after the
    match. *)
Record Match : Type := mkMatch {
  group0 : str;
  groups : list str;
  after : str
}.

(** [m.group(i)] for [i >= 1]. *)
Definition group (m : Match) (i : nat) : str := nth (pred i) (groups m) [].

(** [re.match(r, s)] *)
Definition re_match (r : regex) (s : str) : option Match :=
  rmatch r s [] (fun s' g => Some (mkMatch (take (length s - length s') s) g s')).

(** [re.search(r, s)]: the leftmost match, with the text before it. *)
Fixpoint re_search_from (r : regex) (s : str) : option (str * Match) :=
  match re_match r s with
  | Some m => Some ([], m)
  | None =>
      match s with
      | [] => None
      | c :: s' =>
          match re_search_from r s' with
          | Some (pre, m) => Some (c :: pre, m)
          | None => None
          end
      end
  end.

Definition re_search (r : regex) (s : str) : option Match :=
  snd <$> re_search_from r s.

(** [re.sub(r, repl, s)] for a pattern that never matches the empty string
    (every pattern the module substitutes contains the words "See more"):
    each leftmost match is replaced and the scan goes on after it. *)
Fixpoint re_sub_loop (fuel : nat) (r : regex) (repl s : str) : str :=
  match fuel with
  | O => s
  | S fuel' =>
      match re_match r s with
      | Some (mkMatch (_ :: _) _ rest) => repl ++ re_sub_loop fuel' r repl rest
      | _ =>
          match s with
          | [] => []
          | c :: s' => c :: re_sub_loop fuel' r repl s'
          end
      end
  end.

Definition re_sub (r : regex) (repl s : str) : str :=
  re_sub_loop (S (length s)) r repl s.

(** A pattern anchored with [^] matches at the start only, so its
    substitution replaces at most the match at the start. *)
Definition re_sub_at_start (r : regex) (repl s : str) : str :=
  match re_match r s with
  | Some m => repl ++ after m
  | None => s
  end.

(** Pattern builders. *)
Definition is_char (l : char) : char -> bool := N.eqb l.
Definition lit (s : str) : regex := foldr (fun c r => Seq (Chr (is_char c)) r) Eps s.
Definition ilit (s : str) : regex := foldr (fun c r => Seq (Chr (ieq c)) r) Eps s.
Definition one_or_more (p : char -> bool) : regex := Seq (Chr p) (Star p).
Definition one_of (s : str) (c : char) : bool := existsb (N.eqb c) s.
Definition in_range (a b : char) (c : char) : bool := (a <=? c) && (c <=? b).
Definition seqs (rs : list regex) : regex := foldr Seq Eps rs.
Definition not_newline (c : char) : bool := negb (c =? LF).

(** The longest prefix of [s] without a character of class [stop], and the
    rest. *)
Fixpoint break_at (stop : char -> bool) (s : str) : str * str :=
  match s with
  | [] => ([], [])
  | c :: s' =>
      if stop c then ([], s)
      else let '(a, b) := break_at stop s' in (c :: a, b)
  end.

(** ** Dates and times *)

(** A naive [datetime]. *)
Record datetime : Type := mkDatetime {
  year : Z;
  month : Z;
  day : Z;
  hour : Z;
  minute : Z;
  second : Z;
  microsecond : Z
}.

(** ** The runtime

    What the module takes from the interpreter and its libraries without
    computing it here: the clock, the seeded [hash] of a string, the pieces of
    [urllib.parse] that validate a bracketed host and normalise a non-ASCII
    host, and the decoding of percent escapes. *)
Record Runtime : Type := mkRuntime {
  (** [datetime.now()] *)
  now : datetime;
  (** the builtin [hash] on [str], seeded per process *)
  hash : str -> Z;
  (** [_check_bracketed_netloc]: [false] when it raises [ValueError] *)
  check_bracketed_netloc : str -> bool;
  (** the NFKC test of [_checknetloc] on a non-ASCII host: [false] when it
      raises [ValueError] *)
  checknetloc_nfkc : str -> bool;
  (** [unquote] of a string that contains a percent sign *)
  unquote_escapes : str -> str
}.

(** ** urllib.parse *)

Record ParseResult : Type := mkParseResult {
  scheme : str;
  netloc : str;
  path : str;
  params : str;
  query : str;
  fragment : str
}.

Definition scheme_chars (c : char) : bool :=
  is_lower_ascii c || is_upper_ascii c || in_range 48 57 c || one_of (py "+-.") c.

Definition uses_params : list str :=
  map py [""; "ftp"; "hdl"; "prospero"; "http"; "imap"; "https"; "shttp";
          "rtsp"; "rtspu"; "sip"; "sips"; "mms"; "sftp"; "tel"]%string.

(** [url.lstrip(_WHATWG_C0_CONTROL_OR_SPACE)] *)
Fixpoint lstrip_c0 (s : str) : str :=
  match s with
  | c :: s' => if c <=? 32 then lstrip_c0 s' else s (* U+0000 to U+0020 *)
  | [] => []
  end.

(** [_splitparams]: the parameters start at the first ";" of the last path
    segment. *)
Definition splitparams (url : str) : str * str :=
  if one_of url (ch "/") then
    let segment := List.last (split (ch "/") url) [] in
    let upto := take (length url - length segment) url in
    match split1 (ch ";") segment with
    | (a, Some b) => (upto ++ a, b)
    | (_, None) => (url, [])
    end
  else
    match split1 (ch ";") url with
    | (a, Some b) => (a, b)
    | (a, None) => (a, [])
    end.

Section UrlLib.
Variable rt : Runtime.

(** [urlsplit(url)] followed by the parameter split of [urlparse(url)], as
    CPython 3.11 has them.  [ValueError] is the documented answer to an
    unbalanced bracket in the host. *)
Definition urlparse (url : str) : exc ParseResult :=
  let url := lstrip_c0 url in
  let url := replace LF [] (replace CR [] (replace TAB [] url)) in
  (* the scheme: letters, digits, "+-." before the first colon *)
  let '(scheme, url) :=
    match split1 (ch ":") url with
    | (c :: a, Some b) =>
        if (c <? 128) && (is_lower_ascii c || is_upper_ascii c)
           && forallb scheme_chars (c :: a)
        then (lower (c :: a), b)
        else ([], url)
    | _ => ([], url)
    end in
  (* the authority after "//", up to the first of "/?#" *)
  '(netloc, url) ←
    (if startswith url (py "//") then
       let '(netloc, rest) := break_at (one_of (py "/?#")) (drop 2 url) in
       let lb := one_of netloc (ch "[") in
       let rb := one_of netloc (ch "]") in
       if (lb && negb rb) || (rb && negb lb) then Raise ValueError
       else if lb && rb && negb (check_bracketed_netloc rt netloc)
       then Raise ValueError
       else Ok (netloc, rest)
     else Ok ([], url));
  let '(url, fragment) :=
    match split1 (ch "#") url with
    | (a, Some b) => (a, b)
    | (a, None) => (a, [])
    end in
  let '(url, query) :=
    match split1 (ch "?") url with
    | (a, Some b) => (a, b)
    | (a, None) => (a, [])
    end in
  (* [_checknetloc] *)
  if negb (bool_decide (netloc = [])) && negb (forallb (fun c => c <? 128) netloc)
     && negb (checknetloc_nfkc rt netloc)
  then Raise ValueError
  else
    let '(url, params) :=
      if bool_decide (scheme ∈ uses_params) && one_of url (ch ";")
      then splitparams url else (url, []) in
    Ok (mkParseResult scheme netloc url params query fragment).

(** [unquote(s)]: a string without a percent sign is returned as it is. *)
Definition unquote (s : str) : str :=
  if one_of s (ch "%") then unquote_escapes rt s else s.

(** [parse_qsl(qs)] with the defaults: fields are separated by "&", a field
    without "=" or with an empty value is dropped. *)
Definition parse_qsl (qs : str) : list (str * str) :=
  if bool_decide (qs = []) then []
  else
    flat_map
      (fun name_value =>
         if bool_decide (name_value = []) then []
         else match split1 (ch "=") name_value with
              | (_, None) => []
              | (n, Some v) =>
                  if bool_decide (v = []) then []
                  else [(unquote (replace (ch "+") (py " ") n),
                         unquote (replace (ch "+") (py " ") v))]
              end)
      (split (ch "&") qs).

(** [parse_qs(qs)]: the values of each name, in the order met. *)
Definition parse_qs (qs : str) : gmap str (list str) :=
  fold_left
    (fun parsed_result '(name, value) =>
       match parsed_result !! name with
       | Some vs => <[name := vs ++ [value]]> parsed_result
       | None => <[name := [value]]> parsed_result
       end)
    (parse_qsl qs) ∅.

(** ** extract_post_id *)

(** [/posts/(\d+)] *)
Definition posts_re : regex := Seq (lit (py "/posts/")) (Group (one_or_more isdecimal)).

(** [pfbid[a-zA-Z0-9]+] *)
Definition alnum_ascii (c : char) : bool :=
  is_lower_ascii c || is_upper_ascii c || in_range 48 57 c.
Definition pfbid_re : regex := Seq (lit (py "pfbid")) (one_or_more alnum_ascii).

(** The value of the [story_fbid] parameter when the URL names one:
    [params.get("story_fbid", [None])[0]], kept when it is not empty. *)
Definition story_fbid_of (url : str) (parsed : ParseResult) : option str :=
  if contains url (py "story_fbid") then
    match parse_qs (query parsed) !! py "story_fbid" with
    | Some (v :: _) => if bool_decide (v = []) then None else Some v
    | _ => None (* [parse_qs] binds no name to an empty list *)
    end
  else None.

Definition extract_post_id (url : str) : exc (option str) :=
  if bool_decide (url = []) then Ok None
  else
    parsed ← urlparse url;
    match story_fbid_of url parsed with
    | Some story_fbid => Ok (Some story_fbid)
    | None =>
        match re_search posts_re url with
        | Some m => Ok (Some (group m 1))
        | None =>
            match re_search pfbid_re url with
            | Some m => Ok (Some (group0 m))
            | None => Ok None
            end
        end
    end.

End UrlLib.

(** ** Records of forage.models *)

(** Modelled from the spec: [forage/models.py] is not among the sources.
    [Reactions] is a total and six per-category counts, all zero by
    default. *)
Module Reactions.
Record t : Type := mk {
  total : Z;
  like : Z;
  love : Z;
  haha : Z;
  wow : Z;
  sad : Z;
  angry : Z
}.
(** [Reactions()] *)
Definition zero : t := mk 0 0 0 0 0 0 0.
(** [Reactions(total=n)] *)
Definition of_total (n : Z) : t := mk n 0 0 0 0 0 0.
End Reactions.

(** ** parse_reactions_text *)

(** [(\d+)] *)
Definition digits_re : regex := Group (one_or_more isdecimal).

Definition parse_reactions_text (text : str) : Reactions.t :=
  if bool_decide (text = []) then Reactions.zero
  else
    let total_match := re_search digits_re (replace (ch ",") [] text) in
    let total :=
      match total_match with
      | Some m => int (group m 1)
      | None => 0%Z
      end in
    Reactions.of_total total.

(** ** datetime arithmetic *)

Section Calendar.
Local Open Scope Z_scope.

Definition is_leap (y : Z) : bool :=
  (y mod 4 =? 0) && (negb (y mod 100 =? 0) || (y mod 400 =? 0)).

(** [_DAYS_IN_MONTH] and [_DAYS_BEFORE_MONTH], the tables of a common year. *)
Definition DAYS_IN_MONTH (m : Z) : Z :=
  if m =? 2 then 28
  else if (m =? 4) || (m =? 6) || (m =? 9) || (m =? 11) then 30
  else 31.

Definition DAYS_BEFORE_MONTH (m : Z) : Z :=
  fold_right Z.add 0 (map DAYS_IN_MONTH (seqZ 1 (m - 1))).

Definition days_in_month (y m : Z) : Z :=
  if (m =? 2) && is_leap y then 29 else DAYS_IN_MONTH m.

Definition days_before_year (y : Z) : Z :=
  let y := y - 1 in
  y * 365 + y / 4 - y / 100 + y / 400.

Definition days_before_month (y m : Z) : Z :=
  DAYS_BEFORE_MONTH m + (if (2 <? m) && is_leap y then 1 else 0).

(** [_ymd2ord]: 1 January of year 1 is day 1. *)
Definition ymd2ord (y m d : Z) : Z :=
  days_before_year y + days_before_month y m + d.

(** [_ord2ymd] *)
Definition ord2ymd (n : Z) : Z * Z * Z :=
  let n := n - 1 in
  let n400 := n / 146097 in
  let n := n mod 146097 in
  let y := n400 * 400 + 1 in
  let n100 := n / 36524 in
  let n := n mod 36524 in
  let n4 := n / 1461 in
  let n := n mod 1461 in
  let n1 := n / 365 in
  let n := n mod 365 in
  let y := y + n100 * 100 + n4 * 4 + n1 in
  if (n1 =? 4) || (n100 =? 4) then (y - 1, 12, 31)
  else
    let leapyear := (n1 =? 3) && (negb (n4 =? 24) || (n100 =? 3)) in
    let m := (n + 50) / 32 in
    let preceding :=
      DAYS_BEFORE_MONTH m + (if (2 <? m) && leapyear then 1 else 0) in
    if n <? preceding then
      let m := m - 1 in
      let preceding :=
        preceding - (DAYS_IN_MONTH m + (if (m =? 2) && leapyear then 1 else 0)) in
      (y, m, n - preceding + 1)
    else (y, m, n - preceding + 1).

(** The constructor [datetime(y, m, d, hh, mm, ss, us)]: [ValueError] for a
    field out of range. *)
Definition new_datetime (y m d hh mm ss us : Z) : exc datetime :=
  if (1 <=? y) && (y <=? 9999) && (1 <=? m) && (m <=? 12)
     && (1 <=? d) && (d <=? days_in_month y m)
     && (0 <=? hh) && (hh <? 24) && (0 <=? mm) && (mm <? 60)
     && (0 <=? ss) && (ss <? 60) && (0 <=? us) && (us <? 1000000)
  then Ok (mkDatetime y m d hh mm ss us)
  else Raise ValueError.

(** [dt.replace(year=y)] *)
Definition replace_year (dt : datetime) (y : Z) : exc datetime :=
  new_datetime y (month dt) (day dt) (hour dt) (minute dt) (second dt)
    (microsecond dt).

Definition day_us : Z := 86400000000.
Definition MAXORDINAL : Z := 3652059.

(** Microseconds since the start of day 0. *)
Definition to_microseconds (dt : datetime) : Z :=
  (((ymd2ord (year dt) (month dt) (day dt) * 24 + hour dt) * 60
    + minute dt) * 60 + second dt) * 1000000 + microsecond dt.

Definition of_microseconds (t : Z) : datetime :=
  let '(y, m, d) := ord2ymd (t / day_us) in
  let r := t mod day_us in
  mkDatetime y m d (r / 3600000000) (r / 60000000 mod 60)
    (r / 1000000 mod 60) (r mod 1000000).

(** [dt - timedelta(microseconds=us)] for [us >= 0].  [OverflowError] when
    the duration or its negation has more than 999999999 days, or when the
    result leaves the years 1 to 9999. *)
Definition sub_timedelta (dt : datetime) (us : Z) : exc datetime :=
  if 999999999 <? us / day_us then Raise OverflowError
  else if (- us) / day_us <? -999999999 then Raise OverflowError
  else
    let t := to_microseconds dt - us in
    if (0 <? t / day_us) && (t / day_us <=? MAXORDINAL)
    then Ok (of_microseconds t)
    else Raise OverflowError.

Definition minutes (n : Z) : Z := n * 60000000.
Definition hours (n : Z) : Z := n * 3600000000.
Definition days (n : Z) : Z := n * day_us.
Definition weeks (n : Z) : Z := n * 7 * day_us.

End Calendar.

(** ** datetime.strptime

    [_strptime] turns the format into a regular expression compiled with
    [re.IGNORECASE]: a run of white space becomes [\s+], a directive becomes
    a named group, any other character stands for itself.  The string must
    match and be used up.  The tables are those of the C locale. *)

Definition f_month : list str :=
  map py ["january"; "february"; "march"; "april"; "may"; "june"; "july";
          "august"; "september"; "october"; "november"; "december"]%string.

Definition a_month : list str :=
  map py ["jan"; "feb"; "mar"; "apr"; "may"; "jun"; "jul"; "aug"; "sep";
          "oct"; "nov"; "dec"]%string.

Definition am_pm : list str := map py ["am"; "pm"]%string.

(** [sorted(names, key=len, reverse=True)]: stable, longest first. *)
Fixpoint insert_by_len (x : str) (l : list str) : list str :=
  match l with
  | [] => [x]
  | y :: l' =>
      if (length x <? length y)%nat then y :: insert_by_len x l' else x :: l
  end.

(** [__seqToRE]: the alternatives, longest first. *)
Definition seqToRE (names : list str) : regex :=
  match foldr insert_by_len [] names with
  | [] => Eps
  | n :: ns => Group (fold_left (fun r x => Alt r (ilit x)) ns (ilit n))
  end.

Definition range_re (a b : string) : regex :=
  match py a, py b with
  | [x], [y] => Chr (in_range x y)
  | _, _ => Eps
  end.

Definition space_re : regex := Chr (is_char (ch " ")).
Definition d_ : regex := Chr isdecimal.

(** The regular expression of a directive (the table of [TimeRE]), for the
    directives the formats of this module use. *)
Definition directive_re (d : char) : option regex :=
  if d =? ch "d" then
    Some (Group (Alt (Seq (lit (py "3")) (range_re "0" "1"))
                (Alt (Seq (range_re "1" "2") d_)
                (Alt (Seq (lit (py "0")) (range_re "1" "9"))
                (Alt (range_re "1" "9")
                     (Seq space_re (range_re "1" "9")))))))
  else if (d =? ch "m") || (d =? ch "I") then
    Some (Group (Alt (Seq (lit (py "1")) (range_re "0" "2"))
                (Alt (Seq (lit (py "0")) (range_re "1" "9"))
                     (range_re "1" "9"))))
  else if d =? ch "M" then
    Some (Group (Alt (Seq (range_re "0" "5") d_) d_))
  else if d =? ch "y" then Some (Group (Seq d_ d_))
  else if d =? ch "Y" then Some (Group (seqs [d_; d_; d_; d_]))
  else if d =? ch "B" then Some (seqToRE f_month)
  else if d =? ch "b" then Some (seqToRE a_month)
  else if d =? ch "p" then Some (seqToRE am_pm)
  else None.

(** [TimeRE.pattern]: the expression of a format and the directives of its
    groups in order; [None] for a directive outside the table above. *)
Fixpoint pattern (format : str) : option (regex * list char) :=
  match format with
  | [] => Some (Eps, [])
  | c :: rest =>
      if c =? ch "%" then
        match rest with
        | d :: rest' =>
            match directive_re d, pattern rest' with
            | Some r, Some (r', ds) => Some (Seq r r', d :: ds)
            | _, _ => None
            end
        | [] => None
        end
      else
        match pattern rest with
        | Some (r', ds) =>
            if isspace c then
              match rest with
              | c' :: _ => if isspace c' then Some (r', ds)
                           else Some (Seq (one_or_more isspace) r', ds)
              | [] => Some (Seq (one_or_more isspace) r', ds)
              end
            else Some (Seq (Chr (ieq c)) r', ds)
        | None => None
        end
  end.

Section Strptime.
Local Open Scope Z_scope.

(** [found_dict.get(d)]: the text of the group of directive [d]. *)
Definition found (ds : list char) (m : Match) (d : string) : option str :=
  snd <$> find (fun p => (fst p =? ch d)%N) (zip ds (groups m)).

(** [names.index(x)] *)
Fixpoint index (x : str) (names : list str) : option nat :=
  match names with
  | [] => None
  | n :: names' => if str_eqb n x then Some O else S <$> index x names'
  end.

(** The month of a name: [ValueError] when the lowercased text is not in
    the table (a name matched through a non-ASCII letter). *)
Definition month_of_name (names : list str) (text : str) : exc Z :=
  match index (lower text) names with
  | Some i => Ok (Z.of_nat (S i))
  | None => Raise ValueError
  end.

(** [datetime.strptime(data_string, format)] *)
Definition strptime (data_string format : str) : exc datetime :=
  match pattern format with
  | None => Raise ValueError
  | Some (format_regex, ds) =>
      match re_match format_regex data_string with
      | None => Raise ValueError (* does not match the format *)
      | Some m =>
          if negb (bool_decide (after m = [])) then
            Raise ValueError (* unconverted data remains *)
          else
            (* the groups found, by directive *)
            let year :=
              match found ds m "Y", found ds m "y" with
              | Some t, _ => Some (int t)
              | None, Some t =>
                  Some (if int t <=? 68 then int t + 2000 else int t + 1900)
              | None, None => None
              end in
            month ←
              match found ds m "B", found ds m "b", found ds m "m" with
              | Some t, _, _ => month_of_name f_month t
              | None, Some t, _ => month_of_name a_month t
              | None, None, Some t => Ok (int t)
              | None, None, None => Ok 1
              end;
            let day := from_option int 1 (found ds m "d") in
            let hour :=
              match found ds m "I" with
              | Some t =>
                  let hour := int t in
                  let ampm := lower (default [] (found ds m "p")) in
                  if str_eqb ampm [] || str_eqb ampm (py "am") then
                    (if hour =? 12 then 0 else hour)
                  else if str_eqb ampm (py "pm") then
                    (if hour =? 12 then hour else hour + 12)
                  else hour
              | None => 0
              end in
            let minute := from_option int 0 (found ds m "M") in
            (* without a year, 29 February is checked in the leap year 1904
               and then built in 1900 *)
            let check_year :=
              match year with
              | Some y => y
              | None => if (month =? 2) && (day =? 29) then 1904 else 1900
              end in
            _ ← new_datetime check_year month day 0 0 0 0;
            new_datetime (default 1900 year) month day hour minute 0 0
      end
  end.

End Strptime.

(** ** parse_timestamp *)

Section ParseTimestamp.
Variable rt : Runtime.

(** [^(\d+)\s*<unit>] with [$] or without, under [re.IGNORECASE]. *)
Definition relative_re (unit : string) (to_end : bool) : regex :=
  seqs [Group (one_or_more isdecimal); Star isspace; ilit (py unit);
        if to_end then Eos else Eps].

Definition relative_patterns : list (regex * (Match -> exc datetime)) :=
  [ (relative_re "m" true,
     fun m => sub_timedelta (now rt) (minutes (int (group m 1))));
    (relative_re "h" true,
     fun m => sub_timedelta (now rt) (hours (int (group m 1))));
    (relative_re "d" true,
     fun m => sub_timedelta (now rt) (days (int (group m 1))));
    (relative_re "w" true,
     fun m => sub_timedelta (now rt) (weeks (int (group m 1))));
    (relative_re "min" false,
     fun m => sub_timedelta (now rt) (minutes (int (group m 1))));
    (relative_re "hr" false,
     fun m => sub_timedelta (now rt) (hours (int (group m 1))));
    (ilit (py "Just now"), fun _ => Ok (now rt)) ].

Definition date_formats : list str :=
  map py [ "%B %d, %Y at %I:%M %p";
           "%B %d at %I:%M %p";
           "%b %d, %Y at %I:%M %p";
           "%b %d at %I:%M %p";
           "%m/%d/%Y";
           "%m/%d/%y" ]%string.

(** The first relative pattern that matches decides. *)
Fixpoint try_relative (patterns : list (regex * (Match -> exc datetime)))
    (text : str) : option (exc datetime) :=
  match patterns with
  | [] => None
  | (pattern, handler) :: rest =>
      match re_match pattern text with
      | Some m => Some (handler m)
      | None => try_relative rest text
      end
  end.

(** The body of the [try] for one format. *)
Definition parse_with (fmt text : str) : exc datetime :=
  parsed ← strptime text fmt;
  if (year parsed =? 1900)%Z then replace_year parsed (year (now rt))
  else Ok parsed.

(** The loop over the formats: [ValueError] moves on to the next one. *)
Fixpoint try_formats (formats : list str) (text : str) : exc (option datetime) :=
  match formats with
  | [] => Ok None
  | fmt :: rest =>
      match parse_with fmt text with
      | Ok parsed => Ok (Some parsed)
      | Raise ValueError => try_formats rest text
      | Raise e => Raise e
      end
  end.

Definition parse_timestamp (text : str) : exc (option datetime) :=
  if bool_decide (text = []) then Ok None
  else
    let text := strip text in
    match try_relative relative_patterns text with
    | Some r => Some <$> r
    | None =>
        if startswith (lower text) (py "yesterday") then
          Some <$> sub_timedelta (now rt) (days 1)
        else try_formats date_formats text
    end.

End ParseTimestamp.

(** ** Posts and comments *)

(** A reference to a comment object. *)
Abbreviation loc := positive.

(** Modelled from the spec: the records of [forage/models.py], which is not
    among the sources.  A comment holds references to its replies, a post
    to its comments; [Comment.replies] is the one field that
    [filter_comments] assigns. *)
Module Author.
Record t : Type := mk {
  name : str;
  profile_url : option str
}.
End Author.

Module Comment.
Record t : Type := mk {
  id : str;
  author : Author.t;
  content : str;
  timestamp : option datetime;
  reactions : Reactions.t;
  replies : list loc
}.
(** [comment.replies = rs] *)
Definition set_replies (c : t) (rs : list loc) : t :=
  mk (id c) (author c) (content c) (timestamp c) (reactions c) rs.
End Comment.

Module Post.
Record t : Type := mk {
  id : str;
  author : Author.t;
  content : str;
  timestamp : option datetime;
  reactions : Reactions.t;
  comments_count : Z;
  comments : list loc
}.
End Post.

#[global] Instance comment_inhabited : Inhabited Comment.t :=
  populate (Comment.mk [] (Author.mk [] None) [] None Reactions.zero []).

(** ** The document tree

    A Playwright [ElementHandle] is known through its answers: its own
    identity, its visible text, its attributes and, for each selector, the
    elements the selector finds below it.  Every call on a handle whose
    element has left the page raises. *)
Inductive ElementHandle : Type := Element {
  handle : Z;
  attached : bool;
  text : str;
  attributes : list (str * str);
  selected : list (str * list ElementHandle)
}.

(** [d.get(key)] on an association list. *)
Definition assoc {V} (key : str) (d : list (str * V)) : option V :=
  snd <$> find (fun kv => str_eqb (fst kv) key) d.

Definition inner_text (e : ElementHandle) : exc str :=
  if attached e then Ok (text e) else Raise PlaywrightError.

Definition get_attribute (e : ElementHandle) (name : str) : exc (option str) :=
  if attached e then Ok (assoc name (attributes e)) else Raise PlaywrightError.

Definition query_selector_all (e : ElementHandle) (selector : str)
    : exc (list ElementHandle) :=
  if attached e then Ok (default [] (assoc selector (selected e)))
  else Raise PlaywrightError.

Definition query_selector (e : ElementHandle) (selector : str)
    : exc (option ElementHandle) :=
  head <$> query_selector_all e selector.

(** [id(e)] of the handle object. *)
Definition id_of (e : ElementHandle) : Z := handle e.

(** Selectors with a quoted value: [tag[attr="value"]]. *)
Definition quoted (s : string) : str := [QUOTE] ++ py s ++ [QUOTE].
Definition attr_selector (tag attr_op value : string) : str :=
  py tag ++ py "[" ++ py attr_op ++ quoted value ++ py "]".
Definition either (a b : str) : str := a ++ py ", " ++ b.

(** ** Helpers of the extractors *)

(** Truth of a string and of an optional string. *)
Definition nonempty (s : str) : bool := negb (bool_decide (s = [])).
Definition truthy (o : option str) : bool := from_option nonempty false o.

(** [s.split(sep)[0]]: the text before the first [sep]. *)
Fixpoint before_first (sep s : str) : str :=
  if startswith s sep then []
  else match s with
       | [] => []
       | c :: s' => c :: before_first sep s'
       end.

Definition str_in (s : str) (l : list str) : bool := existsb (str_eqb s) l.

(** [[line.strip() for line in all_text.split("\n") if line.strip()]] *)
Definition stripped_lines (all_text : str) : list str :=
  List.filter nonempty (map strip (split LF all_text)).

(** [^\d+[hdwm]$] *)
Definition bare_timestamp_re : regex :=
  seqs [one_or_more isdecimal; Chr (one_of (py "hdwm")); Eos].
Definition is_bare_timestamp (s : str) : bool :=
  bool_decide (is_Some (re_match bare_timestamp_re s)).

(** [\s*…?\s*See more\s*], at the end with [$] and at the start with [^];
    the ellipsis is U+2026. *)
Definition see_more : list regex :=
  [Star isspace; Opt (Chr (is_char 8230)); Star isspace;
   lit (py "See more"); Star isspace].
Definition see_more_at_end_re : regex := seqs (see_more ++ [Eos]).
Definition see_more_at_start_re : regex := seqs see_more.

(** The middle dot U+00B7 and the byte order mark U+FEFF. *)
Definition middle_dot : str := [183].
Definition bom : str := [65279].

(** [f"https://mbasic.facebook.com{profile_url}"] for a relative link. *)
Definition mbasic_absolute (profile_url : option str) : option str :=
  match profile_url with
  | Some u =>
      if nonempty u && negb (startswith u (py "http"))
      then Some (py "https://mbasic.facebook.com" ++ u)
      else Some u
  | None => None
  end.

Section Extractors.
Variable rt : Runtime.

(** The synthetic identifier: [f"{kind}_{hash(content[:n]) % 10**9}"]. *)
Definition hashed_id (kind : string) (n : nat) (content : str) : str :=
  py kind ++ py "_" ++ str_of_int (hash rt (take n content) mod 10 ^ 9)%Z.

(** [f"{kind}_{id(node)}"] *)
Definition identity_id (kind : string) (node : ElementHandle) : str :=
  py kind ++ py "_" ++ str_of_int (id_of node).

(** *** parse_mbasic_comment *)

Definition parse_mbasic_comment (comment_div : ElementHandle) : option Comment.t :=
  try_or_none (
    author_link ← query_selector comment_div (py "h3 a");
    '(author_name, profile_url) ←
      match author_link with
      | Some author_link =>
          author_name ← strip <$> inner_text author_link;
          profile_url ← get_attribute author_link (py "href");
          Ok (author_name, mbasic_absolute profile_url)
      | None => Ok (py "Unknown", None)
      end;
    content_div ←
      query_selector comment_div (py "div[data-commentid] > div, h3 + div");
    content ←
      match content_div with
      | Some content_div => strip <$> inner_text content_div
      | None => Ok []
      end;
    content ←
      (if nonempty content then Ok content
       else
         all_text ← inner_text comment_div;
         let lines := split LF all_text in
         if (1 <? length lines)%nat
         then Ok (strip (join [LF] (tail lines)))
         else Ok content);
    comment_id ← get_attribute comment_div (py "data-commentid");
    let comment_id :=
      if truthy comment_id then default [] comment_id
      else if nonempty content then hashed_id "comment" 30 content
      else identity_id "comment" comment_div in
    reaction_span ←
      query_selector comment_div (attr_selector "a" "href*=" "reaction");
    reactions ←
      match reaction_span with
      | Some reaction_span =>
          reaction_text ← strip <$> inner_text reaction_span;
          Ok (parse_reactions_text reaction_text)
      | None => Ok Reactions.zero
      end;
    Ok (Some (Comment.mk comment_id (Author.mk author_name profile_url)
                content None reactions []))).

(** *** parse_mbasic_post *)

(** ["top_level_post_id":"(\d+)"] *)
Definition top_level_post_id_re : regex :=
  seqs [lit (quoted "top_level_post_id" ++ py ":" ++ [QUOTE]);
        Group (one_or_more isdecimal); lit [QUOTE]].

Definition parse_mbasic_post (article : ElementHandle) : option Post.t :=
  try_or_none (
    header ← query_selector article (py "h3");
    '(author_name, profile_url) ←
      match header with
      | Some header =>
          author_link ← query_selector header (py "a");
          match author_link with
          | Some author_link =>
              author_name ← strip <$> inner_text author_link;
              profile_url ← get_attribute author_link (py "href");
              Ok (author_name, mbasic_absolute profile_url)
          | None => Ok (py "Unknown", None)
          end
      | None => Ok (py "Unknown", None)
      end;
    content_div ← query_selector article (py "div > div > span");
    content ←
      match content_div with
      | Some content_div => strip <$> inner_text content_div
      | None => Ok []
      end;
    content ←
      (if nonempty content then Ok content
       else
         paragraphs ← query_selector_all article (py "p");
         (* the comprehension reads each paragraph for the test and, when
            it is kept, once more for the value *)
         content_parts ←
           mapM (fun p =>
                   t ← inner_text p;
                   if nonempty (strip t) then
                     t' ← inner_text p; Ok [strip t']
                   else Ok [])
                paragraphs;
         Ok (join [LF] (concat content_parts)));
    timestamp_elem ← query_selector article (py "abbr");
    timestamp ←
      match timestamp_elem with
      | Some timestamp_elem =>
          timestamp_text ← strip <$> inner_text timestamp_elem;
          parse_timestamp rt timestamp_text
      | None => Ok None
      end;
    post_link ←
      query_selector article
        (either (attr_selector "a" "href*=" "/story.php")
                (attr_selector "a" "href*=" "/posts/"));
    post_id ←
      match post_link with
      | Some post_link =>
          href ← get_attribute post_link (py "href");
          if truthy href then extract_post_id rt (default [] href)
          else Ok None
      | None => Ok None
      end;
    post_id ←
      (if truthy post_id then Ok post_id
       else
         data_ft ← get_attribute article (py "data-ft");
         if truthy data_ft then
           match re_search top_level_post_id_re (default [] data_ft) with
           | Some m => Ok (Some (group m 1))
           | None => Ok post_id
           end
         else Ok post_id);
    let post_id :=
      if truthy post_id then default [] post_id
      else if nonempty content then hashed_id "post" 50 content
      else identity_id "post" article in
    reaction_link ←
      query_selector article (attr_selector "a" "href*=" "/ufi/reaction/");
    reactions ←
      match reaction_link with
      | Some reaction_link =>
          reaction_text ← strip <$> inner_text reaction_link;
          Ok (parse_reactions_text reaction_text)
      | None => Ok Reactions.zero
      end;
    comment_link ←
      query_selector article (attr_selector "a" "href*=" "comment");
    comments_count ←
      match comment_link with
      | Some comment_link =>
          comment_text ← inner_text comment_link;
          match re_search digits_re comment_text with
          | Some count_match => Ok (int (group count_match 1))
          | None => Ok 0%Z
          end
      | None => Ok 0%Z
      end;
    Ok (Some (Post.mk post_id (Author.mk author_name profile_url) content
                timestamp reactions comments_count []))).

(** *** parse_modern_post *)

(** The loop over the role-tagged links: the first link with a short text
    and a profile address gives the author. *)
Fixpoint author_from_links (author_links : list ElementHandle)
    : exc (option (str * str)) :=
  match author_links with
  | [] => Ok None
  | link :: rest =>
      href ← default [] <$> get_attribute link (py "href");
      link_text ← strip <$> inner_text link;
      if (2 <? length link_text)%nat && (length link_text <? 50)%nat
         && contains href (py "facebook.com/")
         && negb (contains href (py "/groups/"))
         && negb (contains (List.last (split (ch "/") href) []) (py "?"))
      then Ok (Some (link_text, href))
      else author_from_links rest
  end.

(** The editorial markers after which the author name is cut. *)
Definition cut_at (marker : string) (author_name : str) : str :=
  if contains author_name (py marker)
  then before_first (py marker) author_name
  else author_name.

Definition skip_posts : list str :=
  [py "People you may know"; bom ++ py "People you may know";
   py "Suggested for you"; py "Groups you might like"].

Definition invalid_authors : list str :=
  map py ["Online status indicator"; "Active"; "Sponsored"]%string.

(** The texts of the blocks that look like content. *)
Definition post_content_parts (author_name : str) (texts : list str) : list str :=
  let skip_phrases :=
    [py "Like"; py "Comment"; py "Share"; py "Reply"; author_name; middle_dot] in
  List.filter
    (fun text =>
       negb (length text <? 10)%nat
       && negb (str_eqb text author_name)
       && negb (existsb (str_eqb text) skip_phrases)
       && negb (is_bare_timestamp text))
    texts.

(** One step of the loop that removes duplicates: the state is the set
    [seen] and the list [unique_parts]. *)
Definition keep_unique (cleaned : str) (st : gset str * list str)
    : gset str * list str :=
  let '(seen, unique_parts) := st in
  if nonempty cleaned && negb (bool_decide (cleaned ∈ seen))
  then ({[cleaned]} ∪ seen, unique_parts ++ [cleaned])
  else st.

Definition clean_post_part (part : str) : str :=
  let cleaned := strip part in
  let cleaned := re_sub see_more_at_end_re [] cleaned in
  re_sub_at_start see_more_at_start_re [] cleaned.

Definition unique_post_parts (content_parts : list str) : list str :=
  snd (fold_left (fun st part => keep_unique (clean_post_part part) st)
         content_parts (∅, [])).

(** The fallback on the lines of the whole text. *)
Definition post_filtered_lines (author_name : str) (lines : list str) : list str :=
  List.filter
    (fun line =>
       negb (str_eqb line author_name)
       && negb (is_bare_timestamp line)
       && negb (str_in line
                  [py "Like"; py "Comment"; py "Share"; middle_dot;
                   py "+3"; py "+1"; py "+2"])
       && (10 <? length line)%nat)
    lines.

(** The loop over the permalinks for the timestamp. *)
Definition time_words : list str :=
  map py ["h"; "d"; "w"; "min"; "yesterday"; "just now"]%string.

Fixpoint timestamp_from_links (time_links : list ElementHandle)
    (timestamp : option datetime) : exc (option datetime) :=
  match time_links with
  | [] => Ok timestamp
  | link :: rest =>
      aria ← get_attribute link (py "aria-label");
      timestamp ←
        (if truthy aria then parse_timestamp rt (default [] aria)
         else Ok timestamp);
      if truthy aria && bool_decide (is_Some timestamp) then Ok timestamp
      else
        link_text ← strip <$> inner_text link;
        if nonempty link_text
           && existsb (contains (lower link_text)) time_words
        then
          timestamp ← parse_timestamp rt link_text;
          if bool_decide (is_Some timestamp) then Ok timestamp
          else timestamp_from_links rest timestamp
        else timestamp_from_links rest timestamp
  end.

(** The loop over all links for the identifier. *)
Fixpoint post_id_from_links (all_links : list ElementHandle)
    (post_id : option str) : exc (option str) :=
  match all_links with
  | [] => Ok post_id
  | link :: rest =>
      href ← get_attribute link (py "href");
      if truthy href then
        post_id ← extract_post_id rt (default [] href);
        if truthy post_id then Ok post_id
        else post_id_from_links rest post_id
      else post_id_from_links rest post_id
  end.

(** The loop over the labelled elements for the reactions. *)
Fixpoint post_reactions_from_labels (reaction_elements : list ElementHandle)
    (reactions : Reactions.t) : exc Reactions.t :=
  match reaction_elements with
  | [] => Ok reactions
  | elem :: rest =>
      aria ← default [] <$> get_attribute elem (py "aria-label");
      if contains (lower aria) (py "reaction") || contains (lower aria) (py "like")
      then
        let reactions := parse_reactions_text aria in
        if (0 <? Reactions.total reactions)%Z then Ok reactions
        else post_reactions_from_labels rest reactions
      else post_reactions_from_labels rest reactions
  end.

(** [All reactions:?\s*\n?(\d+)] *)
Definition all_reactions_re : regex :=
  seqs [lit (py "All reactions"); Opt (Chr (is_char (ch ":"))); Star isspace;
        Opt (Chr (is_char LF)); Group (one_or_more isdecimal)].

(** [\n(\d+)\n.*(?:and \d+ others|others)] *)
Definition and_others_re : regex :=
  seqs [Chr (is_char LF); Group (one_or_more isdecimal); Chr (is_char LF);
        Star not_newline;
        Alt (seqs [lit (py "and "); one_or_more isdecimal; lit (py " others")])
            (lit (py "others"))].

(** [(\d+)\s*comment] *)
Definition comment_count_re : regex :=
  seqs [Group (one_or_more isdecimal); Star isspace; lit (py "comment")].

Fixpoint comments_count_from_labels (comment_buttons : list ElementHandle)
    : exc Z :=
  match comment_buttons with
  | [] => Ok 0%Z
  | btn :: rest =>
      aria ← default [] <$> get_attribute btn (py "aria-label");
      match re_search comment_count_re (lower aria) with
      | Some m => Ok (int (group m 1))
      | None => comments_count_from_labels rest
      end
  end.

(** The [page] argument of the source is not used and is left out. *)
Definition parse_modern_post (article : ElementHandle) : option Post.t :=
  try_or_none (
    all_text ← inner_text article;
    let lines := stripped_lines all_text in
    (* the author: a strong element, else a profile link, else line one *)
    strong_elem ← query_selector article (py "strong");
    '(author_name, profile_url) ←
      match strong_elem with
      | Some strong_elem =>
          author_name ← strip <$> inner_text strong_elem;
          parent_link ← query_selector strong_elem (py "xpath=ancestor::a");
          match parent_link with
          | Some parent_link =>
              profile_url ← get_attribute parent_link (py "href");
              Ok (author_name, profile_url)
          | None => Ok (author_name, None)
          end
      | None => Ok (py "Unknown", None)
      end;
    '(author_name, profile_url) ←
      (if str_eqb author_name (py "Unknown") then
         author_links ← query_selector_all article (attr_selector "a" "role=" "link");
         found ← author_from_links author_links;
         match found with
         | Some (link_text, href) => Ok (link_text, Some href)
         | None => Ok (author_name, profile_url)
         end
       else Ok (author_name, profile_url));
    let author_name :=
      match lines with
      | first_line :: _ =>
          if str_eqb author_name (py "Unknown")
             && (length first_line <? 50)%nat
             && negb (existsb isdigit (take 5 first_line))
          then first_line else author_name
      | [] => author_name
      end in
    let author_name := cut_at " is with " author_name in
    let author_name := cut_at " shared " author_name in
    let author_name := cut_at " updated " author_name in
    (* feed noise is not a post *)
    if str_in author_name skip_posts
       || existsb (contains (take 100 all_text)) skip_posts
    then Ok None
    else
      let author_name :=
        if str_in author_name invalid_authors then py "Unknown"
        else author_name in
      (* the content: up to two blocks, else up to three lines *)
      content_divs ← query_selector_all article (attr_selector "div" "dir=" "auto");
      texts ← mapM (fun div => strip <$> inner_text div) content_divs;
      let content_parts := post_content_parts author_name texts in
      let unique_parts := unique_post_parts content_parts in
      let content :=
        if bool_decide (unique_parts = []) then []
        else join [LF] (take 2 unique_parts) in
      let content :=
        if negb (nonempty content) && (2 <? length lines)%nat
        then join [LF] (take 3 (post_filtered_lines author_name lines))
        else content in
      time_links ←
        query_selector_all article
          (either (attr_selector "a" "href*=" "/posts/")
                  (py "a[href*=" ++ quoted "?story_fbid" ++ py "]"));
      timestamp ← timestamp_from_links time_links None;
      all_links ← query_selector_all article (py "a[href]");
      post_id ← post_id_from_links all_links None;
      let post_id :=
        if truthy post_id then default [] post_id
        else if nonempty content then hashed_id "post" 50 content
        else identity_id "post" article in
      reaction_elements ←
        query_selector_all article
          (either (attr_selector "" "aria-label*=" "reaction")
                  (attr_selector "" "aria-label*=" "like"));
      reactions ← post_reactions_from_labels reaction_elements Reactions.zero;
      reactions ←
        (if (Reactions.total reactions =? 0)%Z then
           all_text ← inner_text article;
           let reactions :=
             match re_search all_reactions_re all_text with
             | Some m => Reactions.of_total (int (group m 1))
             | None => reactions
             end in
           if (Reactions.total reactions =? 0)%Z then
             match re_search and_others_re all_text with
             | Some m => Ok (Reactions.of_total (int (group m 1)))
             | None => Ok reactions
             end
           else Ok reactions
         else Ok reactions);
      comment_buttons ←
        query_selector_all article
          (either (attr_selector "" "aria-label*=" "comment")
                  (attr_selector "" "aria-label*=" "Comment"));
      comments_count ← comments_count_from_labels comment_buttons;
      (* only a record with some content is returned *)
      if negb (nonempty content) || (length content <? 5)%nat then Ok None
      else
        Ok (Some (Post.mk post_id (Author.mk author_name profile_url) content
                    timestamp reactions comments_count []))).

(** *** parse_modern_comment *)

Fixpoint comment_author_from_links (links : list ElementHandle)
    : exc (option (str * str)) :=
  match links with
  | [] => Ok None
  | link :: rest =>
      href ← default [] <$> get_attribute link (py "href");
      text ← strip <$> inner_text link;
      if nonempty text && (length text <? 50)%nat
         && contains href (py "facebook.com/")
         && negb (contains href (py "/groups/"))
      then Ok (Some (text, href))
      else comment_author_from_links rest
  end.

Definition skip_words (author_name : str) : list str :=
  [py "Like"; py "Reply"; py "Share"; middle_dot; author_name;
   py "See more"; py "View replies"].

Definition comment_content_parts (author_name : str) (texts : list str)
    : list str :=
  List.filter
    (fun text =>
       nonempty text && (5 <? length text)%nat
       && negb (str_in text (skip_words author_name))
       && negb (is_bare_timestamp text))
    texts.

Definition keep_unique_comment (author_name cleaned : str)
    (st : gset str * list str) : gset str * list str :=
  let '(seen, unique_parts) := st in
  if nonempty cleaned && negb (bool_decide (cleaned ∈ seen))
     && negb (str_eqb cleaned author_name)
  then ({[cleaned]} ∪ seen, unique_parts ++ [cleaned])
  else st.

Definition unique_comment_parts (author_name : str) (content_parts : list str)
    : list str :=
  snd (fold_left
         (fun st part =>
            keep_unique_comment author_name
              (strip (re_sub see_more_at_end_re [] part)) st)
         content_parts (∅, [])).

(** The fallback: the first line that is not the author, not a skipped word,
    not a bare timestamp, and longer than five characters. *)
Definition comment_line_fallback (author_name : str) (lines : list str) : str :=
  default []
    (find (fun line =>
             negb (str_eqb line author_name)
             && negb (str_in line (skip_words author_name))
             && negb (is_bare_timestamp line)
             && (5 <? length line)%nat)
          lines).

(** The first labelled element that mentions a reaction decides. *)
Fixpoint comment_reactions_from_labels (reaction_elems : list ElementHandle)
    : exc Reactions.t :=
  match reaction_elems with
  | [] => Ok Reactions.zero
  | elem :: rest =>
      aria ← default [] <$> get_attribute elem (py "aria-label");
      if contains (lower aria) (py "reaction")
      then Ok (parse_reactions_text aria)
      else comment_reactions_from_labels rest
  end.

(** [\n(\d+)\n] *)
Definition number_line_re : regex :=
  seqs [Chr (is_char LF); Group (one_or_more isdecimal); Chr (is_char LF)].

Definition parse_modern_comment (element : ElementHandle) : option Comment.t :=
  try_or_none (
    all_text ← inner_text element;
    let lines := stripped_lines all_text in
    if bool_decide (lines = []) then Ok None
    else
      strong ← query_selector element (py "strong");
      author_name ←
        match strong with
        | Some strong => strip <$> inner_text strong
        | None => Ok (py "Unknown")
        end;
      links ← query_selector_all element (attr_selector "a" "role=" "link");
      found ← comment_author_from_links links;
      let '(author_name, profile_url) :=
        match found with
        | Some (text, href) =>
            (if str_eqb author_name (py "Unknown") then text else author_name,
             Some href)
        | None => (author_name, None)
        end in
      content_divs ← query_selector_all element (attr_selector "div" "dir=" "auto");
      texts ← mapM (fun div => strip <$> inner_text div) content_divs;
      let content_parts := comment_content_parts author_name texts in
      let unique_parts := unique_comment_parts author_name content_parts in
      let content := default [] (head unique_parts) in
      let content :=
        if nonempty content then content
        else comment_line_fallback author_name lines in
      if negb (nonempty content) then Ok None
      else
        let comment_id := hashed_id "comment" 30 content in
        reaction_elems ←
          query_selector_all element
            (either (attr_selector "" "aria-label*=" "reaction")
                    (attr_selector "" "aria-label*=" "like"));
        reactions ← comment_reactions_from_labels reaction_elems;
        let reactions :=
          if (Reactions.total reactions =? 0)%Z then
            match re_search number_line_re all_text with
            | Some m => Reactions.of_total (int (group m 1))
            | None => reactions
            end
          else reactions in
        Ok (Some (Comment.mk comment_id (Author.mk author_name profile_url)
                    content None reactions []))).

End Extractors.

(** ** filter_comments *)

(** The store of comment objects. *)
Abbreviation store := (gmap loc Comment.t).

Section Filter.
Local Open Scope Z_scope.

(** [c.reactions.total] and [c.replies] of the object at [c]. *)
Definition total_of (h : store) (c : loc) : Z :=
  Reactions.total (Comment.reactions (h !!! c)).
Definition replies_of (h : store) (c : loc) : list loc :=
  Comment.replies (h !!! c).

(** [sorted(l, key=key, reverse=True)]: a stable sort, largest key first,
    equal keys in the order of [l]. *)
Fixpoint insert_desc (key : loc -> Z) (x : loc) (l : list loc) : list loc :=
  match l with
  | [] => [x]
  | y :: l' => if key x <? key y then y :: insert_desc key x l' else x :: l
  end.

Definition sorted_desc (key : loc -> Z) (l : list loc) : list loc :=
  foldr (insert_desc key) [] l.

(** The two selections at one level. *)
Definition select (h : store) (min_reactions top_n : Z) (comments : list loc)
    : list loc :=
  let filtered := comments in
  let filtered :=
    if 0 <? min_reactions
    then filter (fun c => min_reactions <= total_of h c) filtered
    else filtered in
  if 0 <? top_n
  then take (Z.to_nat top_n) (sorted_desc (total_of h) filtered)
  else filtered.

(** A [for] loop over references that threads the store. *)
Fixpoint for_each (body : store -> loc -> option store) (h : store)
    (l : list loc) : option store :=
  match l with
  | [] => Some h
  | c :: l' =>
      match body h c with
      | Some h' => for_each body h' l'
      | None => None
      end
  end.

(** The body of the loop: [if comment.replies: comment.replies =
    filter_comments(comment.replies, ...)], with the recursive call as
    [recur]. *)
Definition filter_replies
    (recur : store -> list loc -> option (store * list loc))
    (h : store) (comment : loc) : option store :=
  if bool_decide (replies_of h comment = []) then Some h
  else
    '(h1, replies) ← recur h (replies_of h comment);
    Some (<[comment := Comment.set_replies (h1 !!! comment) replies]> h1).

(** [filter_comments(comments, min_reactions, top_n)] on the store [h]:
    the store after the call and the list returned.  [fuel] bounds the depth
    of the recursion; [None] says it was not enough. *)
Fixpoint filter_comments (fuel : nat) (h : store) (comments : list loc)
    (min_reactions top_n : Z) : option (store * list loc) :=
  match fuel with
  | O => None
  | S fuel' =>
      let filtered := select h min_reactions top_n comments in
      h' ← for_each
             (filter_replies
                (fun h l => filter_comments fuel' h l min_reactions top_n))
             h filtered;
      Some (h', filtered)
  end.

End Filter.

(** ** Comment trees and the words of the specification about the filter *)

Section FilterWords.
Local Open Scope Z_scope.

(** The replies of the store form no cycle: a rank decreases from a comment
    to each of its replies. *)
Definition ranked (rank : loc -> nat) (h : store) : Prop :=
  forall c x, x ∈ replies_of h c -> (rank x < rank c)%nat.

(** "Their [reactions.total] values are non-increasing": each comment has
    at least the total of every comment after it. *)
Definition at_least (key : loc -> Z) (a b : loc) : Prop := key b <= key a.
Definition non_increasing (h : store) (l : list loc) : Prop :=
  StronglySorted (at_least (total_of h)) l.

(** "Original relative order is preserved among equal totals": the
    comments of each total come in [new] in the order they have in
    [orig]. *)
Definition keeps_order (h : store) (orig new : list loc) : Prop :=
  forall t, filter (fun c => total_of h c = t) new
              `sublist_of` filter (fun c => total_of h c = t) orig.

(** The two properties of one level for [topN = top_n]. *)
Definition level_ok (h : store) (top_n : Z) (orig new : list loc) : Prop :=
  (length new <= Z.to_nat top_n)%nat
  /\ non_increasing h new
  /\ keeps_order h orig new.

(** The comments that survive in the store [h] below the list [r]: those of
    [r], and the replies of a survivor. *)
Inductive survives (h : store) (r : list loc) : loc -> Prop :=
| survives_top c : c ∈ r -> survives h r c
| survives_reply c x : survives h r c -> x ∈ replies_of h c -> survives h r x.

(** Two comment objects that differ at most in their replies. *)
Definition same_but_replies (a b : Comment.t) : Prop :=
  Comment.set_replies a (Comment.replies b) = b.

(** A comment is settled when the selection of one level leaves its replies
    as they are, and its replies are settled. *)
Inductive settled (min_reactions top_n : Z) (h : store) : loc -> Prop :=
| settled_intro c :
    select h min_reactions top_n (replies_of h c) = replies_of h c ->
    Forall (settled min_reactions top_n h) (replies_of h c) ->
    settled min_reactions top_n h c.

(** What a run of the filter may change between two stores: nothing but
    replies, which are replaced by order-keeping selections of themselves
    and, where they are replaced, settled. *)
Definition filtered_from (min_reactions top_n : Z) (h h' : store) : Prop :=
  dom h' = dom h
  /\ (forall c, same_but_replies (h' !!! c) (h !!! c))
  /\ (forall c, keeps_order h (replies_of h c) (replies_of h' c))
  /\ (forall c, replies_of h' c = replies_of h c
                \/ settled min_reactions top_n h' c).

End FilterWords.

(** ** The specification's words

    Definitions that follow the prose of the specification, for comparison
    with the functions above. *)

(** The longest prefix of [s] made of characters of the class [p], and what
    follows it. *)
Fixpoint run_of (p : char -> bool) (s : str) : str :=
  match s with
  | c :: s' => if p c then c :: run_of p s' else []
  | [] => []
  end.

Fixpoint after_run (p : char -> bool) (s : str) : str :=
  match s with
  | c :: s' => if p c then after_run p s' else s
  | [] => []
  end.


(** "[/posts/<digits>]": the digits after the first "/posts/" that is
    followed by a digit. *)
Fixpoint posts_digits (url : str) : option str :=
  if startswith url (py "/posts/")
     && nonempty (run_of isdecimal (drop 7 url))
  then Some (run_of isdecimal (drop 7 url))
  else match url with
       | [] => None
       | _ :: url' => posts_digits url'
       end.

(** "A token matching [pfbid[alphanumeric]+]": the first "pfbid" that a
    letter or digit follows, with the letters and digits after it. *)
Fixpoint pfbid_token (url : str) : option str :=
  if startswith url (py "pfbid")
     && nonempty (run_of alnum_ascii (drop 5 url))
  then Some (py "pfbid" ++ run_of alnum_ascii (drop 5 url))
  else match url with
       | [] => None
       | _ :: url' => pfbid_token url'
       end.

(** ** Words about the extractors *)

(** A reactions value that carries a total only: the total is not negative
    and every count by kind is 0. *)
Definition total_only (r : Reactions.t) : Prop :=
  (0 <= Reactions.total r)%Z /\ r = Reactions.of_total (Reactions.total r).

(** A link that gives the loop over the links no identifier: its address is
    read, and it is empty or [extract_post_id] finds nothing in it. *)
Definition no_post_id (rt : Runtime) (link : ElementHandle) : Prop :=
  exists href,
    get_attribute link (py "href") = Ok href
    /\ (truthy href = true -> extract_post_id rt (default [] href) = Ok None).

(** ** Examples *)

(** A runtime: the clock reads 4 November 2026, 12:30:15. *)
Definition rt_example : Runtime :=
  mkRuntime (mkDatetime 2026 11 4 12 30 15 0) (fun _ => 42%Z)
    (fun _ => true) (fun _ => true) (fun s => s).

(** Comment objects, and a store: comment 1 has the reply 2, comment 4 the
    replies 3 and 6, comment 3 the reply 6. *)
Definition comment_example (total : Z) (replies : list loc) : Comment.t :=
  Comment.mk (py "c") (Author.mk (py "Unknown") None) (py "hello") None
    (Reactions.of_total total) replies.

Definition store_example : store :=
  <[1%positive := comment_example 5 [2%positive]]>
  (<[2%positive := comment_example 0 []]>
  (<[4%positive := comment_example 5 [3%positive; 6%positive]]>
  (<[3%positive := comment_example 2 [6%positive]]>
  (<[5%positive := comment_example 9 []]>
  (<[6%positive := comment_example 2 []]> ∅))))).

(** A rank for it: 4 is above 3, which is above 6, and 1 is above 2. *)
Definition rank_example (c : loc) : nat :=
  if (c =? 4)%positive then 2
  else if (c =? 1)%positive || (c =? 3)%positive then 1
  else 0.

(** Document nodes.  A node with no text, no attribute and no descendant
    that any selector finds; a comment whose only block reads
    "ab See more"; and the post of the specification's end-to-end example,
    with the author in a strong element, a permalink that reads "6h" and a
    label "42 reactions". *)
Definition leaf (s : string) (attrs : list (str * str)) : ElementHandle :=
  Element 1 true (py s) attrs [].

Definition node_empty : ElementHandle := Element 7 true [] [] [].

Definition node_see_more : ElementHandle :=
  Element 8 true (py "ab See more") []
    [(attr_selector "div" "dir=" "auto", [leaf "ab See more" []])].

Definition permalink_example : ElementHandle :=
  leaf "6h" [(py "href", py "https://www.facebook.com/groups/g/posts/998877")].

(** A comment of the mbasic site: the author link has a relative address,
    the reaction link reads "3". *)
Definition node_mbasic_comment : ElementHandle :=
  Element 11 true (join [LF] (map py ["Jane Doe"; "Nice one"]%string))
    [(py "data-commentid", py "778899")]
    [ (py "h3 a", [leaf "Jane Doe" [(py "href", py "/jane.doe")]]);
      (attr_selector "a" "href*=" "reaction", [leaf "3" []]) ].

(** A post of the mbasic site whose time element reads a day count that
    goes back before year 1. *)
Definition node_mbasic_old : ElementHandle :=
  Element 12 true (py "Old news")
    []
    [ (py "abbr", [leaf "740000d" []]) ].

(** A post whose first link has an address that [urlparse] refuses. *)
Definition node_bad_link : ElementHandle :=
  Element 13 true
    (join [LF] (map py ["Jane Doe"; "Check this out!"; "Like"]%string))
    []
    [ (py "strong", [leaf "Jane Doe" []]);
      (attr_selector "div" "dir=" "auto", [leaf "Check this out!" []]);
      (py "a[href]", [leaf "" []; leaf "x" [(py "href", py "http://[")]]) ].

Definition node_post : ElementHandle :=
  Element 9 true
    (join [LF] (map py ["Jane Doe"; "Check this out!"; "Like"; "6h"; "Comment"]%string))
    []
    [ (py "strong", [leaf "Jane Doe" []]);
      (attr_selector "div" "dir=" "auto",
       [leaf "Jane Doe" []; leaf "Check this out!" []; leaf "Like" [];
        leaf "6h" []; leaf "Comment" []]);
      (either (attr_selector "a" "href*=" "/posts/")
              (py "a[href*=" ++ quoted "?story_fbid" ++ py "]"),
       [permalink_example]);
      (py "a[href]", [permalink_example]);
      (either (attr_selector "" "aria-label*=" "reaction")
              (attr_selector "" "aria-label*=" "like"),
       [leaf "" [(py "aria-label", py "42 reactions")]]) ].


(** * Properties *)

(** ** Regular expressions *)

Section MatcherFacts.
Context {R : Type}.

Lemma startswith_app (s p : str) :
  startswith s p = true -> s = p ++ drop (length p) s.
Proof.
  revert s; induction p as [|x p IH]; intros [|y s]; simpl; try done.
  intros [Hxy Hs]%andb_prop. apply N.eqb_eq in Hxy as ->.
  f_equal. by apply IH.
Qed.

Lemma rmatch_lit (p s : str) (g : list str) (k : str -> list str -> option R) :
  rmatch (lit p) s g k =
  if startswith s p then k (drop (length p) s) g else None.
Proof.
  revert s; induction p as [|x p IH]; intros s; simpl.
  - by destruct s.
  - destruct s as [|y s]; [done|]. unfold is_char. simpl.
    destruct (x =? y); simpl; [apply IH | done].
Qed.

Lemma star_loop_total (p : char -> bool) (k : str -> option R) (s : str) :
  (forall x, is_Some (k x)) -> star_loop p k s = k (after_run p s).
Proof.
  intros Hk. induction s as [|c s IH]; simpl; [done|].
  destruct (p c); [|done]. rewrite IH.
  by destruct (Hk (after_run p s)) as [x ->].
Qed.

Lemma rmatch_one_or_more (p : char -> bool) (s : str) (g : list str)
    (k : str -> list str -> option R) :
  (forall x, is_Some (k x g)) ->
  rmatch (one_or_more p) s g k =
  match s with
  | c :: s' => if p c then k (after_run p s') g else None
  | [] => None
  end.
Proof.
  intros Hk. unfold one_or_more. simpl. destruct s as [|c s]; [done|].
  destruct (p c); [|done]. by apply star_loop_total.
Qed.

End MatcherFacts.

Lemma run_after (p : char -> bool) (s : str) : run_of p s ++ after_run p s = s.
Proof.
  induction s as [|c s IH]; simpl; [done|].
  destruct (p c); simpl; [by rewrite IH | done].
Qed.

Lemma take_run (p : char -> bool) (s : str) :
  take (length s - length (after_run p s)) s = run_of p s.
Proof.
  rewrite <- (run_after p s) at 1 3.
  rewrite length_app, Nat.add_sub.
  by rewrite take_app_length.
Qed.

Lemma rmatch_seq {R} (r1 r2 : regex) (s : str) (g : list str)
    (k : str -> list str -> option R) :
  rmatch (Seq r1 r2) s g k = rmatch r1 s g (fun s' g' => rmatch r2 s' g' k).
Proof. reflexivity. Qed.

Lemma nonempty_run (p : char -> bool) (s : str) :
  nonempty (run_of p s) =
  match s with c :: _ => p c | [] => false end.
Proof. destruct s as [|c s]; simpl; [done|]. by destruct (p c). Qed.

Lemma rmatch_one_or_more_run {R} (p : char -> bool) (s : str) (g : list str)
    (k : str -> list str -> option R) :
  (forall x, is_Some (k x g)) ->
  rmatch (one_or_more p) s g k =
  if nonempty (run_of p s) then k (after_run p s) g else None.
Proof.
  intros Hk. rewrite rmatch_one_or_more by done. rewrite nonempty_run.
  destruct s as [|c s]; [done|]. simpl. by destruct (p c).
Qed.

Lemma rmatch_group_run {R} (p : char -> bool) (s : str) (g : list str)
    (k : str -> list str -> option R) :
  (forall x g', is_Some (k x g')) ->
  rmatch (Group (one_or_more p)) s g k =
  if nonempty (run_of p s) then k (after_run p s) (g ++ [run_of p s]) else None.
Proof.
  intros Hk. cbn [rmatch]. rewrite rmatch_one_or_more_run by (intros; apply Hk).
  by rewrite take_run.
Qed.

(** [re.search] follows the scan of the specification as soon as
    [re.match] follows its test at one position. *)
Lemma re_search_scan {A} (r : regex) (f : Match -> A) (test : str -> option A)
    (scan : str -> option A) :
  (forall s, f <$> re_match r s = test s) ->
  (forall s, scan s =
             match test s with
             | Some a => Some a
             | None => match s with [] => None | _ :: s' => scan s' end
             end) ->
  forall s, f <$> re_search r s = scan s.
Proof.
  intros Hm Hscan s. unfold re_search.
  induction s as [|c s IH]; rewrite Hscan, <- Hm; simpl.
  - by destruct (re_match r []).
  - destruct (re_match r (c :: s)); [done|]. simpl.
    rewrite <- IH. by destruct (re_search_from r s) as [[]|].
Qed.



Lemma re_match_posts (s : str) :
  (fun m => group m 1) <$> re_match posts_re s =
  if startswith s (py "/posts/") && nonempty (run_of isdecimal (drop 7 s))
  then Some (run_of isdecimal (drop 7 s)) else None.
Proof.
  unfold re_match, posts_re. rewrite rmatch_seq, rmatch_lit.
  destruct (startswith s (py "/posts/")); [|done].
  rewrite rmatch_group_run by (intros; eexists; reflexivity).
  change (length (py "/posts/")) with 7%nat.
  by destruct (nonempty _).
Qed.

Lemma re_search_posts (url : str) :
  (fun m => group m 1) <$> re_search posts_re url = posts_digits url.
Proof.
  apply re_search_scan with
    (test := fun s =>
       if startswith s (py "/posts/") && nonempty (run_of isdecimal (drop 7 s))
       then Some (run_of isdecimal (drop 7 s)) else None).
  - apply re_match_posts.
  - intros [|c s']; simpl; [done|]. by destruct (_ && _).
Qed.

Lemma take_prefix_run (p : char -> bool) (pre s : str) :
  startswith s pre = true ->
  take (length s - length (after_run p (drop (length pre) s))) s =
  pre ++ run_of p (drop (length pre) s).
Proof.
  intros Hs%startswith_app. set (t := drop (length pre) s) in *.
  rewrite Hs at 1 2. rewrite <- (run_after p t) at 1 3.
  rewrite app_assoc, length_app, Nat.add_sub.
  by rewrite take_app_length.
Qed.

Lemma re_match_pfbid (s : str) :
  group0 <$> re_match pfbid_re s =
  if startswith s (py "pfbid") && nonempty (run_of alnum_ascii (drop 5 s))
  then Some (py "pfbid" ++ run_of alnum_ascii (drop 5 s)) else None.
Proof.
  unfold re_match, pfbid_re. rewrite rmatch_seq, rmatch_lit.
  destruct (startswith s (py "pfbid")) eqn:Hs; [|done].
  rewrite rmatch_one_or_more_run by (intros; eexists; reflexivity).
  change (length (py "pfbid")) with 5%nat.
  destruct (nonempty _); [|done].
  cbn [fmap option_fmap option_map group0 andb]. f_equal.
  apply (take_prefix_run alnum_ascii (py "pfbid") s Hs).
Qed.

Lemma re_search_pfbid (url : str) :
  group0 <$> re_search pfbid_re url = pfbid_token url.
Proof.
  apply re_search_scan with
    (test := fun s =>
       if startswith s (py "pfbid") && nonempty (run_of alnum_ascii (drop 5 s))
       then Some (py "pfbid" ++ run_of alnum_ascii (drop 5 s)) else None).
  - apply re_match_pfbid.
  - intros [|c s']; simpl; [done|]. by destruct (_ && _).
Qed.

(** ** parse_reactions_text *)

Lemma int_nonneg (s : str) : (0 <= int s)%Z.
Proof.
  unfold int.
  assert (forall acc, (0 <= acc)%Z ->
    (0 <= fold_left (fun acc c =>
            10 * acc + Z.of_N (default 0%N (digit_value c)))%Z s acc)%Z) as H.
  { induction s as [|c s IH]; simpl; intros acc Hacc; [done|].
    apply IH. lia. }
  by apply H.
Qed.


(** ** extract_post_id *)

(** C5.  The claim says that [extract_post_id] never raises.  On the
    non-empty address "http://[" the call of [urlparse], which comes before
    every test of the function, raises [ValueError] for the unbalanced
    bracket of the host, and [extract_post_id] has no handler. *)
Theorem extract_post_id_raises (rt : Runtime) :
  extract_post_id rt (py "http://[") = Raise ValueError.
Proof. reflexivity. Qed.

Lemma extract_post_id_eq (rt : Runtime) (url : str) (parsed : ParseResult) :
  urlparse rt url = Ok parsed ->
  extract_post_id rt url =
    Ok (match story_fbid_of rt url parsed with
        | Some story_fbid => Some story_fbid
        | None =>
            match posts_digits url with
            | Some digits => Some digits
            | None => pfbid_token url
            end
        end).
Proof.
  intros Hparsed. unfold extract_post_id. case_bool_decide as Hurl.
  - subst url. reflexivity.
  - rewrite Hparsed. cbn [mbind exc_bind].
    destruct (story_fbid_of rt url parsed); [done|].
    rewrite <- re_search_posts, <- re_search_pfbid.
    destruct (re_search posts_re url); [done|].
    by destruct (re_search pfbid_re url).
Qed.




(** ** The stable sort and the selection of one level *)

Section SortFacts.
Local Open Scope Z_scope.
Variable key : loc -> Z.

Abbreviation geq := (at_least key).

Lemma insert_desc_perm (x : loc) (l : list loc) : insert_desc key x l ≡ₚ x :: l.
Proof.
  induction l as [|y l IH]; simpl; [done|].
  destruct (key x <? key y); [|done].
  rewrite IH. apply Permutation_swap.
Qed.

Lemma sorted_desc_perm (l : list loc) : sorted_desc key l ≡ₚ l.
Proof.
  induction l as [|x l IH]; simpl; [done|].
  by rewrite insert_desc_perm, IH.
Qed.

Lemma insert_desc_sorted (x : loc) (l : list loc) :
  StronglySorted geq l -> StronglySorted geq (insert_desc key x l).
Proof.
  induction 1 as [|y l Hl IH Hy]; simpl.
  - repeat constructor.
  - destruct (Z.ltb_spec (key x) (key y)).
    + constructor; [done|].
      rewrite insert_desc_perm. constructor; [unfold at_least; lia | done].
    + constructor; [by constructor|].
      constructor; [unfold at_least; lia|].
      eapply Forall_impl; [exact Hy|]. unfold at_least. intros; simpl in *; lia.
Qed.

Lemma sorted_desc_sorted (l : list loc) : StronglySorted geq (sorted_desc key l).
Proof.
  induction l as [|x l IH]; simpl; [constructor|].
  by apply insert_desc_sorted.
Qed.

Lemma sorted_desc_id (l : list loc) :
  StronglySorted geq l -> sorted_desc key l = l.
Proof.
  induction 1 as [|x l Hl IH Hx]; simpl; [done|]. rewrite IH.
  destruct l as [|y l]; simpl; [done|].
  apply Forall_cons in Hx as [Hxy _]. unfold at_least in Hxy.
  destruct (Z.ltb_spec (key x) (key y)); [lia | done].
Qed.

(** The sort is stable: it leaves the comments of each key in their order. *)
Lemma filter_insert_desc (t : Z) (x : loc) (l : list loc) :
  filter (fun c => key c = t) (insert_desc key x l)
  = filter (fun c => key c = t) (x :: l).
Proof.
  induction l as [|y l IH]; simpl; [done|].
  destruct (Z.ltb_spec (key x) (key y)); [|done].
  rewrite (filter_cons _ y), IH, !filter_cons.
  repeat case_decide; try done; lia.
Qed.

Lemma filter_sorted_desc (t : Z) (l : list loc) :
  filter (fun c => key c = t) (sorted_desc key l)
  = filter (fun c => key c = t) l.
Proof.
  induction l as [|x l IH]; simpl; [done|].
  by rewrite filter_insert_desc, !filter_cons, IH.
Qed.

Lemma StronglySorted_take (n : nat) (l : list loc) :
  StronglySorted geq l -> StronglySorted geq (take n l).
Proof.
  intros Hl. revert n. induction Hl as [|x l Hl IH Hx]; intros [|n]; simpl;
    try constructor; [apply IH | by apply Forall_take].
Qed.

End SortFacts.

Lemma sublist_filter_mono {A} (P : A -> Prop) `{!forall x, Decision (P x)}
    (l1 l2 : list A) :
  l1 `sublist_of` l2 -> filter P l1 `sublist_of` filter P l2.
Proof.
  induction 1 as [|x l1 l2 _ IH|x l1 l2 _ IH]; [done| |].
  - rewrite !filter_cons. case_decide; [by constructor | done].
  - rewrite filter_cons. case_decide; [by constructor | done].
Qed.

Lemma insert_desc_ext (k1 k2 : loc -> Z) (x : loc) (l : list loc) :
  (forall c, k1 c = k2 c) -> insert_desc k1 x l = insert_desc k2 x l.
Proof.
  intros Hk. induction l as [|y l IH]; simpl; [done|].
  by rewrite !Hk, IH.
Qed.

Lemma sorted_desc_ext (k1 k2 : loc -> Z) (l : list loc) :
  (forall c, k1 c = k2 c) -> sorted_desc k1 l = sorted_desc k2 l.
Proof.
  intros Hk. induction l as [|x l IH]; simpl; [done|].
  rewrite IH. by apply insert_desc_ext.
Qed.

Section SelectFacts.
Local Open Scope Z_scope.
Variables min_reactions top_n : Z.

Lemma select_ext (h h' : store) (l : list loc) :
  (forall c, total_of h' c = total_of h c) ->
  select h' min_reactions top_n l = select h min_reactions top_n l.
Proof.
  intros Hk. unfold select.
  assert (forall l, filter (fun c => min_reactions <= total_of h' c) l
                    = filter (fun c => min_reactions <= total_of h c) l) as ->.
  { intros l0. apply list_filter_iff. intros c. by rewrite Hk. }
  destruct (0 <? min_reactions), (0 <? top_n); try done;
    f_equal; by apply sorted_desc_ext.
Qed.

Lemma select_nil (h : store) : select h min_reactions top_n [] = [].
Proof.
  unfold select. rewrite filter_nil.
  destruct (0 <? min_reactions), (0 <? top_n); simpl; by rewrite ?take_nil.
Qed.

Lemma select_subseteq (h : store) (l : list loc) :
  select h min_reactions top_n l ⊆ l.
Proof.
  unfold select. intros x.
  set (l1 := if 0 <? min_reactions then filter _ l else l).
  assert (l1 ⊆ l) as H1.
  { subst l1. destruct (0 <? min_reactions); [apply list_subseteq_filter | done]. }
  destruct (0 <? top_n); [|by intros ?; apply H1].
  intros Hx%subseteq_take. apply H1.
  by rewrite <- (sorted_desc_perm (total_of h) l1).
Qed.

Lemma select_keeps_order (h : store) (l : list loc) :
  keeps_order h l (select h min_reactions top_n l).
Proof.
  intros t. unfold select.
  set (l1 := if 0 <? min_reactions then filter _ l else l).
  assert (l1 `sublist_of` l) as H1.
  { subst l1. destruct (0 <? min_reactions); [apply sublist_filter | done]. }
  transitivity (filter (fun c => total_of h c = t) l1);
    [|by apply sublist_filter_mono].
  destruct (0 <? top_n); [|done].
  rewrite <- (filter_sorted_desc (total_of h) t l1).
  apply sublist_filter_mono, sublist_take.
Qed.

Lemma select_top (h : store) (l : list loc) :
  0 < top_n ->
  (length (select h min_reactions top_n l) <= Z.to_nat top_n)%nat
  /\ non_increasing h (select h min_reactions top_n l).
Proof.
  intros Htop. unfold select.
  destruct (Z.ltb_spec 0 top_n); [|lia]. split.
  - rewrite length_take. lia.
  - apply StronglySorted_take, sorted_desc_sorted.
Qed.

(** Selecting twice is selecting once. *)
Lemma select_idem (h : store) (l : list loc) :
  select h min_reactions top_n (select h min_reactions top_n l)
  = select h min_reactions top_n l.
Proof.
  unfold select.
  set (P := fun c => min_reactions <= total_of h c).
  set (l1 := if 0 <? min_reactions then filter P l else l).
  assert ((if 0 <? min_reactions then filter P l1 else l1) = l1) as Hl1.
  { subst l1. destruct (0 <? min_reactions); [|done].
    apply list_filter_filter_l. done. }
  destruct (0 <? top_n); [|exact Hl1].
  set (l2 := take (Z.to_nat top_n) (sorted_desc (total_of h) l1)).
  assert ((if 0 <? min_reactions then filter P l2 else l2) = l2) as ->.
  { destruct (0 <? min_reactions) eqn:Hmin; [|done].
    assert (Forall P l2) as Hall.
    { subst l2. apply Forall_take. rewrite sorted_desc_perm.
      subst l1. apply Forall_forall. intros x. rewrite list_elem_of_filter. tauto. }
    clear -Hall. induction Hall as [|x l' Hx _ IH]; [done|].
    by rewrite filter_cons_True, IH. }
  rewrite sorted_desc_id by apply StronglySorted_take, sorted_desc_sorted.
  subst l2. rewrite take_take. f_equal. lia.
Qed.

End SelectFacts.


(** ** Runs of filter_comments *)

Section RunFacts.
Local Open Scope Z_scope.
Variables min_reactions top_n : Z.
Variable rank : loc -> nat.

Abbreviation is_settled := (settled min_reactions top_n).
Abbreviation step := (filtered_from min_reactions top_n).
Abbreviation sel := (fun h => select h min_reactions top_n).

Lemma set_replies_id (a : Comment.t) : Comment.set_replies a (Comment.replies a) = a.
Proof. by destruct a. Qed.

Lemma same_but_replies_total (a b : Comment.t) :
  same_but_replies a b ->
  Reactions.total (Comment.reactions a) = Reactions.total (Comment.reactions b).
Proof. unfold same_but_replies. by intros <-. Qed.

Lemma same_but_replies_trans (a b c : Comment.t) :
  same_but_replies a b -> same_but_replies b c -> same_but_replies a c.
Proof. unfold same_but_replies. intros <- <-. by destruct a. Qed.

Lemma step_total (h h' : store) (c : loc) :
  step h h' -> total_of h' c = total_of h c.
Proof. intros (_ & Hsame & _). apply same_but_replies_total, Hsame. Qed.

Lemma keeps_order_ext (h h' : store) (orig new : list loc) :
  (forall c, total_of h' c = total_of h c) ->
  keeps_order h' orig new -> keeps_order h orig new.
Proof.
  intros Hk Hord t. specialize (Hord t).
  by rewrite !(list_filter_iff (fun c => total_of h' c = t)
                 (fun c => total_of h c = t)) in Hord
    by (intros c; by rewrite Hk).
Qed.

Lemma keeps_order_refl (h : store) (l : list loc) : keeps_order h l l.
Proof. by intros t. Qed.

Lemma keeps_order_trans (h : store) (l1 l2 l3 : list loc) :
  keeps_order h l1 l2 -> keeps_order h l2 l3 -> keeps_order h l1 l3.
Proof. intros H12 H23 t. by transitivity (filter (fun c => total_of h c = t) l2). Qed.

Lemma keeps_order_subseteq (h : store) (orig new : list loc) :
  keeps_order h orig new -> new ⊆ orig.
Proof.
  intros Hord x Hx.
  assert (x ∈ filter (fun c => total_of h c = total_of h x) new) as Hin
    by by apply list_elem_of_filter.
  eapply elem_of_sublist in Hin; [|apply Hord].
  by apply list_elem_of_filter in Hin as [_ ?].
Qed.

Lemma step_refl (h : store) : step h h.
Proof.
  repeat split; [|intros c; apply keeps_order_refl|by left].
  intros c. apply set_replies_id.
Qed.

Lemma step_subseteq (h h' : store) (c : loc) :
  step h h' -> replies_of h' c ⊆ replies_of h c.
Proof. intros (_ & _ & Hord & _). eapply keeps_order_subseteq, Hord. Qed.

Lemma step_ranked (h h' : store) : step h h' -> ranked rank h -> ranked rank h'.
Proof. intros Hstep Hr c x Hx. apply Hr. by eapply step_subseteq. Qed.

Lemma settled_step (h h' : store) (x : loc) :
  ranked rank h -> step h h' -> is_settled h x -> is_settled h' x.
Proof.
  intros Hr Hstep. remember (rank x) as n eqn:Hn. revert x Hn.
  induction n as [n IH] using lt_wf_ind. intros x -> Hx.
  destruct Hstep as (Hdom & Hsame & Hord & Hch).
  destruct (Hch x) as [Heq|Hs]; [|done].
  destruct Hx as [x Hfix Hall]. constructor; rewrite Heq.
  - rewrite (select_ext _ _ h h'); [done|].
    intros c. apply same_but_replies_total, Hsame.
  - apply Forall_forall. intros y Hy.
    eapply IH; [by apply Hr| done |].
    by eapply Forall_forall in Hall.
Qed.

Lemma step_trans (h1 h2 h3 : store) :
  ranked rank h1 -> step h1 h2 -> step h2 h3 -> step h1 h3.
Proof.
  intros Hr H12 H23.
  pose proof (step_ranked _ _ H12 Hr) as Hr2.
  pose proof (fun c => step_total h1 h2 c H12) as Hk.
  destruct H12 as (Hd12 & Hs12 & Ho12 & Hc12).
  pose proof H23 as (Hd23 & Hs23 & Ho23 & Hc23).
  repeat split.
  - congruence.
  - intros c. eapply same_but_replies_trans; [apply Hs23 | apply Hs12].
  - intros c. eapply keeps_order_trans; [apply Ho12|].
    eapply keeps_order_ext; [|apply Ho23]. done.
  - intros c. destruct (Hc23 c) as [Heq|Hs]; [|by right].
    rewrite Heq. destruct (Hc12 c) as [Heq'|Hs]; [by left|right].
    by eapply settled_step.
Qed.

(** The assignment [comment.replies = replies] after a run on the replies. *)
Lemma step_assign (h h1 : store) (c : loc) :
  ranked rank h ->
  replies_of h c <> [] ->
  step h h1 ->
  Forall (is_settled h1) (sel h (replies_of h c)) ->
  let h2 := <[c := Comment.set_replies (h1 !!! c) (sel h (replies_of h c))]> h1 in
  step h h2 /\ is_settled h2 c.
Proof.
  intros Hr Hne Hstep Hall h2.
  pose proof (step_ranked _ _ Hstep Hr) as Hr1.
  pose proof (fun x => step_total h h1 x Hstep) as Hk.
  pose proof Hstep as (Hdom & Hsame & Hord & Hch).
  assert (replies_of h2 c = sel h (replies_of h c)) as Hc2.
  { unfold replies_of, h2. by rewrite lookup_total_insert_eq. }
  assert (forall x, x <> c -> h2 !!! x = h1 !!! x) as Hother.
  { intros x Hx. unfold h2. by rewrite lookup_total_insert_ne. }
  assert (forall x, total_of h2 x = total_of h x) as Hk2.
  { intros x. rewrite <- Hk. unfold total_of. destruct (decide (x = c)) as [->|Hx].
    - unfold h2. by rewrite lookup_total_insert_eq.
    - by rewrite Hother. }
  assert (forall ok : Prop, (ok -> is_settled h2 c) ->
          forall x, (rank x < rank c)%nat \/ ok ->
                    is_settled h1 x -> is_settled h2 x) as Hkeep.
  { intros ok Hok x. remember (rank x) as n eqn:Hn. revert x Hn.
    induction n as [n IH] using lt_wf_ind. intros y -> Hx Hs.
    inversion Hs as [y' Hfix Hally]; subst y'.
    destruct (decide (y = c)) as [->|Hy]; [destruct Hx; [lia | auto]|].
    constructor; unfold replies_of; rewrite (Hother y Hy); fold (replies_of h1 y).
    - rewrite (select_ext _ _ h1 h2); [done|]. intros z. by rewrite Hk2, Hk.
    - apply Forall_forall. intros z Hz.
      pose proof (Hr1 _ _ Hz).
      eapply IH; [done..| |by eapply Forall_forall in Hally].
      destruct Hx; [left; lia | by right]. }
  assert (is_settled h2 c) as Hsc.
  { constructor; rewrite Hc2.
    - rewrite (select_ext _ _ h h2) by done. apply select_idem.
    - apply Forall_forall. intros y Hy. apply (Hkeep False); [done| |].
      + left. apply Hr. by eapply select_subseteq.
      + by eapply Forall_forall in Hall. }
  split; [|done].
  repeat split.
  - unfold h2. rewrite dom_insert_L, Hdom.
    assert (c ∈ dom h) as Hc.
    { apply elem_of_dom. destruct (h !! c) eqn:Hl; [done|].
      exfalso. apply Hne. unfold replies_of.
      by rewrite lookup_total_alt, Hl. }
    apply subseteq_union_1_L. by apply singleton_subseteq_l.
  - intros x. destruct (decide (x = c)) as [->|Hx].
    + unfold h2. rewrite lookup_total_insert_eq.
      specialize (Hsame c). unfold same_but_replies in *.
      rewrite <- Hsame at 2. by destruct (h1 !!! c).
    + rewrite (Hother x Hx). apply Hsame.
  - intros x. destruct (decide (x = c)) as [->|Hx].
    + rewrite Hc2. apply select_keeps_order.
    + unfold replies_of at 2. rewrite (Hother x Hx). apply Hord.
  - intros x. destruct (decide (x = c)) as [->|Hx]; [by right|].
    unfold replies_of at 1. rewrite (Hother x Hx). fold (replies_of h1 x).
    destruct (Hch x) as [Heq|Hs]; [by left|right].
    apply (Hkeep True); auto.
Qed.

Lemma filter_comments_S (fuel : nat) (h : store) (cs : list loc) :
  filter_comments (S fuel) h cs min_reactions top_n =
  h' ← for_each
         (filter_replies
            (fun h l => filter_comments fuel h l min_reactions top_n))
         h (sel h cs);
  Some (h', sel h cs).
Proof. reflexivity. Qed.

(** The loop over the selected comments. *)
Lemma for_each_filter_replies (n : nat)
    (recur : store -> list loc -> option (store * list loc)) :
  (forall h cs, ranked rank h -> Forall (fun c => (rank c < n)%nat) cs ->
     exists h', recur h cs = Some (h', sel h cs)
                /\ step h h' /\ Forall (is_settled h') (sel h cs)) ->
  forall l h, ranked rank h -> Forall (fun c => (rank c < S n)%nat) l ->
    exists h', for_each (filter_replies recur) h l = Some h'
               /\ step h h' /\ Forall (is_settled h') l.
Proof.
  intros Hrec. induction l as [|c l IH]; intros h Hr Hl.
  - exists h. split_and!; [done | apply step_refl | constructor].
  - apply Forall_cons in Hl as [Hc Hl]. cbn [for_each]. unfold filter_replies at 1.
    case_bool_decide as Hnil.
    + destruct (IH h Hr Hl) as (h' & Hrun & Hstep & Hall).
      exists h'. split_and!; [done..|]. constructor; [|done].
      eapply settled_step; [done..|].
      constructor; rewrite Hnil; [apply select_nil | constructor].
    + destruct (Hrec h (replies_of h c) Hr) as (h1 & Hrun1 & Hstep1 & Hall1).
      { apply Forall_forall. intros x Hx. pose proof (Hr _ _ Hx). lia. }
      rewrite Hrun1. cbn [mbind option_bind].
      destruct (step_assign h h1 c Hr Hnil Hstep1 Hall1) as [Hstep2 Hsc].
      set (h2 := <[c := _]> h1) in *.
      pose proof (step_ranked _ _ Hstep2 Hr) as Hr2.
      destruct (IH h2 Hr2 Hl) as (h' & Hrun & Hstep & Hall).
      exists h'. split_and!; [done| |].
      * by eapply step_trans.
      * constructor; [|done]. by eapply settled_step.
Qed.

(** A run on a store without cycles ends, returns the selection of its
    level, and leaves a store filtered from the first in which every comment
    returned is settled. *)
Lemma filter_comments_run (n : nat) (h : store) (cs : list loc) :
  ranked rank h -> Forall (fun c => (rank c < n)%nat) cs ->
  exists h', filter_comments (S n) h cs min_reactions top_n = Some (h', sel h cs)
             /\ step h h' /\ Forall (is_settled h') (sel h cs).
Proof.
  revert h cs. induction n as [|n IH]; intros h cs Hr Hcs.
  - destruct cs as [|c cs]; [|apply Forall_cons in Hcs as [? _]; lia].
    exists h. rewrite filter_comments_S. rewrite select_nil.
    split_and!; [done | apply step_refl | constructor].
  - rewrite filter_comments_S.
    destruct (for_each_filter_replies n
                (fun h l => filter_comments (S n) h l min_reactions top_n)
                IH (sel h cs) h Hr) as (h' & Hrun & Hstep & Hall).
    { apply Forall_forall. intros c Hc%select_subseteq.
      by eapply Forall_forall in Hcs. }
    exists h'. rewrite Hrun. by split_and!.
Qed.

(** A second run changes nothing. *)
Lemma for_each_settled (n : nat)
    (recur : store -> list loc -> option (store * list loc)) (h : store) :
  (forall cs, Forall (fun c => (rank c < n)%nat) cs ->
     Forall (is_settled h) cs -> sel h cs = cs -> recur h cs = Some (h, cs)) ->
  ranked rank h ->
  forall l, Forall (fun c => (rank c < S n)%nat) l -> Forall (is_settled h) l ->
    for_each (filter_replies recur) h l = Some h.
Proof.
  intros Hrec Hr. induction l as [|c l IH]; intros Hl Hs; [done|].
  apply Forall_cons in Hl as [Hc Hl]. apply Forall_cons in Hs as [Hsc Hs].
  cbn [for_each]. unfold filter_replies at 1.
  case_bool_decide as Hnil; [by apply IH|].
  destruct Hsc as [c Hfix Hall].
  rewrite Hrec; [|apply Forall_forall; intros x Hx; pose proof (Hr _ _ Hx); lia|done..].
  cbn [mbind option_bind].
  rewrite insert_id.
  - by apply IH.
  - rewrite set_replies_id. apply lookup_lookup_total.
    destruct (h !! c) eqn:Hl'; [done|].
    exfalso. apply Hnil. unfold replies_of. by rewrite lookup_total_alt, Hl'.
Qed.

Lemma filter_comments_settled (n : nat) (h : store) (cs : list loc) :
  ranked rank h -> Forall (fun c => (rank c < n)%nat) cs ->
  Forall (is_settled h) cs -> sel h cs = cs ->
  filter_comments (S n) h cs min_reactions top_n = Some (h, cs).
Proof.
  intros Hr. revert cs. induction n as [|n IH]; intros cs Hcs Hs Hfix.
  - destruct cs as [|c cs]; [|apply Forall_cons in Hcs as [? _]; lia].
    rewrite filter_comments_S. by rewrite select_nil.
  - rewrite filter_comments_S. rewrite Hfix.
    by rewrite (for_each_settled n _ h IH Hr cs Hcs Hs).
Qed.

Lemma survives_settled (h : store) (r : list loc) (c : loc) :
  Forall (is_settled h) r -> survives h r c -> is_settled h c.
Proof.
  intros Hr. induction 1 as [c Hc|c x _ IH Hx].
  - by eapply Forall_forall in Hr.
  - destruct IH as [c _ Hall]. by eapply Forall_forall in Hall.
Qed.

End RunFacts.


(** ** The claims about filter_comments *)

Lemma ranked_intro (rank : loc -> nat) (h : store) :
  map_Forall (fun c o => Forall (fun x => rank x < rank c)%nat (Comment.replies o)) h ->
  ranked rank h.
Proof.
  intros H c x Hx. unfold replies_of in Hx. rewrite lookup_total_alt in Hx.
  destruct (h !! c) as [o|] eqn:Hc; simpl in Hx.
  - specialize (H c o Hc). by eapply Forall_forall in H.
  - by apply elem_of_nil in Hx.
Qed.

Lemma ranked_example : ranked rank_example store_example.
Proof.
  apply ranked_intro. unfold store_example.
  repeat (apply map_Forall_insert_2; [vm_compute; repeat constructor|]).
  apply map_Forall_empty.
Qed.

(** C2 (as stated).  The claim says that after the call the input comments,
    their replies included, are as they were.  In the store of the example
    comment 1 has the reply 2; the call with [minReactions = 1] returns
    comment 1 itself, whose replies are now empty. *)
Lemma filter_comments_mutates_input :
  exists h',
    filter_comments 2 store_example [1%positive] 1 0 = Some (h', [1%positive])
    /\ replies_of store_example 1 = [2%positive]
    /\ replies_of h' 1 = [].
Proof. eexists. split_and!; vm_compute; reflexivity. Qed.

(** C2 (amended).  On a store without cycles [filter_comments] returns, and
    it works in place: the comments returned are comment objects of the
    input list, no comment object is created or removed, every comment
    keeps its identifier, author, content, timestamp and reactions, and
    the only field that changes is [replies], whose new value holds
    replies the comment already had. *)
Theorem filter_comments_in_place (rank : loc -> nat) (fuel : nat) (h : store)
    (comments : list loc) (min_reactions top_n : Z) :
  ranked rank h ->
  Forall (fun c => rank c < fuel)%nat comments ->
  exists h' r,
    filter_comments (S fuel) h comments min_reactions top_n = Some (h', r)
    /\ r ⊆ comments
    /\ dom h' = dom h
    /\ (forall c, same_but_replies (h' !!! c) (h !!! c))
    /\ (forall c, replies_of h' c ⊆ replies_of h c).
Proof.
  intros Hr Hfuel.
  destruct (filter_comments_run min_reactions top_n rank fuel h comments Hr Hfuel)
    as (h' & Hrun & Hstep & _).
  exists h', (select h min_reactions top_n comments).
  split_and!; [done | apply select_subseteq | apply Hstep | apply Hstep |].
  intros c. by eapply step_subseteq.
Qed.

Lemma filter_comments_in_place_witness :
  exists h' r,
    filter_comments 4 store_example [1%positive] 1 0 = Some (h', r)
    /\ r ⊆ [1%positive]
    /\ dom h' = dom store_example
    /\ (forall c, same_but_replies (h' !!! c) (store_example !!! c))
    /\ (forall c, replies_of h' c ⊆ replies_of store_example c).
Proof.
  apply (filter_comments_in_place rank_example 3 store_example [1%positive] 1 0).
  - apply ranked_example.
  - repeat constructor; vm_compute; lia.
Defined.

(** C3.  On a store without cycles and for [topN = k > 0], the list returned
    has at most [k] comments, their totals are non-increasing, and the
    comments of equal total keep the order of the input; and for every
    surviving comment, at every depth, its replies after the call have the
    same properties with respect to its replies before the call. *)
Theorem filter_comments_top_n (rank : loc -> nat) (fuel : nat) (h : store)
    (comments : list loc) (min_reactions top_n : Z) :
  ranked rank h ->
  Forall (fun c => rank c < fuel)%nat comments ->
  (0 < top_n)%Z ->
  exists h' r,
    filter_comments (S fuel) h comments min_reactions top_n = Some (h', r)
    /\ level_ok h' top_n comments r
    /\ forall c, survives h' r c ->
         level_ok h' top_n (replies_of h c) (replies_of h' c).
Proof.
  intros Hr Hfuel Htop.
  destruct (filter_comments_run min_reactions top_n rank fuel h comments Hr Hfuel)
    as (h' & Hrun & Hstep & Hall).
  pose proof (fun c => step_total min_reactions top_n h h' c Hstep) as Hk.
  exists h', (select h min_reactions top_n comments). split; [done|].
  assert (forall l, level_ok h' top_n l (select h' min_reactions top_n l)) as Hlevel.
  { intros l. destruct (select_top min_reactions top_n h' l Htop).
    split_and!; [done..|]. apply select_keeps_order. }
  split.
  - rewrite <- (select_ext _ _ h h') by done. apply Hlevel.
  - intros c Hc.
    apply (survives_settled min_reactions top_n) in Hc; [|done].
    inversion Hc as [c' Hfix _]; subst c'.
    destruct (Hlevel (replies_of h' c)) as (Hlen & Hsorted & _).
    rewrite Hfix in Hlen, Hsorted. split_and!; [done..|].
    destruct Hstep as (_ & _ & Hord & _).
    eapply keeps_order_ext; [|apply Hord]. done.
Qed.

Lemma filter_comments_top_n_witness :
  exists h' r,
    filter_comments 4 store_example [1; 4; 5]%positive 0 2 = Some (h', r)
    /\ level_ok h' 2 [1; 4; 5]%positive r
    /\ forall c, survives h' r c ->
         level_ok h' 2 (replies_of store_example c) (replies_of h' c).
Proof.
  apply (filter_comments_top_n rank_example 3 store_example [1; 4; 5]%positive 0 2).
  - apply ranked_example.
  - repeat constructor; vm_compute; lia.
  - lia.
Defined.

(** C8.  On a store without cycles, filtering the result of a run once more
    with the same thresholds returns the same list and leaves the store as
    the first run left it. *)
Theorem filter_comments_idempotent (rank : loc -> nat) (fuel : nat) (h : store)
    (comments : list loc) (min_reactions top_n : Z) :
  ranked rank h ->
  Forall (fun c => rank c < fuel)%nat comments ->
  exists h' r,
    filter_comments (S fuel) h comments min_reactions top_n = Some (h', r)
    /\ filter_comments (S fuel) h' r min_reactions top_n = Some (h', r).
Proof.
  intros Hr Hfuel.
  destruct (filter_comments_run min_reactions top_n rank fuel h comments Hr Hfuel)
    as (h' & Hrun & Hstep & Hall).
  exists h', (select h min_reactions top_n comments). split; [done|].
  apply (filter_comments_settled min_reactions top_n rank).
  - by eapply step_ranked.
  - apply Forall_forall. intros c Hc%select_subseteq.
    by eapply Forall_forall in Hfuel.
  - done.
  - rewrite (select_ext _ _ h h'); [apply select_idem|].
    intros c. by eapply step_total.
Qed.

Lemma filter_comments_idempotent_witness :
  exists h' r,
    filter_comments 4 store_example [1; 4; 5]%positive 1 2 = Some (h', r)
    /\ filter_comments 4 h' r 1 2 = Some (h', r).
Proof.
  apply (filter_comments_idempotent rank_example 3 store_example [1; 4; 5]%positive 1 2).
  - apply ranked_example.
  - repeat constructor; vm_compute; lia.
Defined.


(** ** parse_timestamp *)

Lemma parse_timestamp_absolute (rt : Runtime) (text : str) :
  text <> [] ->
  try_relative (relative_patterns rt) (strip text) = None ->
  startswith (lower (strip text)) (py "yesterday") = false ->
  parse_timestamp rt text = try_formats rt date_formats (strip text).
Proof.
  intros Htext Hrel Hy. unfold parse_timestamp.
  rewrite bool_decide_eq_false_2 by done. by rewrite Hrel, Hy.
Qed.

Lemma replace_year_january (y : Z) :
  (1 <= y <= 9999)%Z ->
  replace_year (mkDatetime 1900 1 15 14 30 0 0) y
  = Ok (mkDatetime y 1 15 14 30 0 0).
Proof.
  intros [Hlo Hhi]. unfold replace_year, new_datetime. simpl.
  apply Z.leb_le in Hlo, Hhi. by rewrite Hlo, Hhi.
Qed.

(** C4.  The claim says that a date parsed by a format with an explicit
    year keeps its written year, the year 1900 included.  The text
    "January 15, 1900 at 2:30 PM" matches the first format, which has
    [%Y]; the test [parsed.year == 1900] does not look at the format, and
    the result carries the current year. *)
Theorem parse_timestamp_explicit_1900 (rt : Runtime) :
  (1 <= year (now rt) <= 9999)%Z ->
  parse_timestamp rt (py "January 15, 1900 at 2:30 PM")
  = Ok (Some (mkDatetime (year (now rt)) 1 15 14 30 0 0)).
Proof.
  intros Hnow.
  rewrite parse_timestamp_absolute; [|done|vm_compute; reflexivity..].
  change (strip _) with (py "January 15, 1900 at 2:30 PM").
  change date_formats
    with (py "%B %d, %Y at %I:%M %p" :: tail date_formats).
  cbn [try_formats]. unfold parse_with.
  assert (strptime (py "January 15, 1900 at 2:30 PM") (py "%B %d, %Y at %I:%M %p")
          = Ok (mkDatetime 1900 1 15 14 30 0 0)) as ->
    by (vm_compute; reflexivity).
  cbn [mbind exc_bind year]. rewrite Z.eqb_refl.
  by rewrite replace_year_january.
Qed.

Lemma parse_timestamp_explicit_1900_witness :
  parse_timestamp rt_example (py "January 15, 1900 at 2:30 PM")
  = Ok (Some (mkDatetime 2026 1 15 14 30 0 0)).
Proof.
  apply (parse_timestamp_explicit_1900 rt_example). simpl. lia.
Defined.


(** ** The extractors *)

Lemma try_bind {A B} (m : exc A) (k : A -> exc (option B)) (r : B) :
  try_or_none (m ≫= k) = Some r ->
  exists a, m = Ok a /\ try_or_none (k a) = Some r.
Proof. destruct m as [a|e]; [eauto | done]. Qed.

(** Follow a returned record back through the body of an extractor: every
    call that could raise has returned, every early [return None] was not
    taken. *)
Ltac returned H :=
  repeat first
    [ apply try_bind in H as (? & _ & H); cbv beta in H
    | match type of H with
      | try_or_none (Ok None) = Some _ => discriminate H
      | try_or_none (Ok (Some _)) = Some _ =>
          apply (inj Some) in H; subst
      | try_or_none (let 'pair _ _ := ?x in _) = Some _ => destruct x
      | try_or_none (if ?c then _ else _) = Some _ => destruct c eqn:?
      | try_or_none (match ?x with _ => _ end) = Some _ => destruct x
      | try_or_none (let _ := _ in _) = Some _ => cbv zeta in H
      end ].

Lemma truthy_default (o : option str) : truthy o = true -> default [] o <> [].
Proof. by destruct o as [[|c s]|]. Qed.

Lemma hashed_id_nonempty (rt : Runtime) (kind : string) (n : nat) (content : str) :
  hashed_id rt kind n content <> [].
Proof. unfold hashed_id. intros [_ H]%app_eq_nil. discriminate H. Qed.

Lemma identity_id_nonempty (kind : string) (node : ElementHandle) :
  identity_id kind node <> [].
Proof. unfold identity_id. intros [_ H]%app_eq_nil. discriminate H. Qed.

Lemma resolved_id_nonempty (rt : Runtime) (kind : string) (n : nat)
    (found : option str) (content : str) (node : ElementHandle) :
  (if truthy found then default [] found
   else if nonempty content then hashed_id rt kind n content
   else identity_id kind node) <> [].
Proof.
  destruct (truthy found) eqn:Hf; [by apply truthy_default|].
  destruct (nonempty content);
    [apply hashed_id_nonempty | apply identity_id_nonempty].
Qed.

Lemma parse_mbasic_comment_id (rt : Runtime) (node : ElementHandle) (c : Comment.t) :
  parse_mbasic_comment rt node = Some c -> Comment.id c <> [].
Proof.
  unfold parse_mbasic_comment. intros H. returned H.
  all: apply resolved_id_nonempty.
Qed.

Lemma parse_mbasic_post_id (rt : Runtime) (node : ElementHandle) (p : Post.t) :
  parse_mbasic_post rt node = Some p -> Post.id p <> [].
Proof.
  unfold parse_mbasic_post. intros H. returned H.
  all: apply resolved_id_nonempty.
Qed.

Lemma parse_modern_post_id (rt : Runtime) (node : ElementHandle) (p : Post.t) :
  parse_modern_post rt node = Some p -> Post.id p <> [].
Proof.
  unfold parse_modern_post. intros H. returned H.
  all: apply resolved_id_nonempty.
Qed.

Lemma parse_modern_comment_id (rt : Runtime) (node : ElementHandle) (c : Comment.t) :
  parse_modern_comment rt node = Some c -> Comment.id c <> [].
Proof.
  unfold parse_modern_comment. intros H. returned H.
  all: apply hashed_id_nonempty.
Qed.

(** C9.  Every post and comment that an extractor returns has a non-empty
    identifier (and an identifier it has: the field is a string): the
    identifier found is used only when it is not empty, and the synthetic
    ones start with "post_" or "comment_". *)
Theorem extractor_ids_nonempty (rt : Runtime) (node : ElementHandle) :
  (forall p, parse_modern_post rt node = Some p -> Post.id p <> [])
  /\ (forall p, parse_mbasic_post rt node = Some p -> Post.id p <> [])
  /\ (forall c, parse_modern_comment rt node = Some c -> Comment.id c <> [])
  /\ (forall c, parse_mbasic_comment rt node = Some c -> Comment.id c <> []).
Proof.
  split_and!; intros r.
  - apply parse_modern_post_id.
  - apply parse_mbasic_post_id.
  - apply parse_modern_comment_id.
  - apply parse_mbasic_comment_id.
Qed.

Lemma extractor_ids_nonempty_witness :
  exists c, parse_mbasic_comment rt_example node_empty = Some c
            /\ Comment.id c = py "comment_7" /\ Comment.id c <> [].
Proof.
  eexists. split_and!; [vm_compute; reflexivity..|].
  apply (proj2 (proj2 (proj2 (extractor_ids_nonempty rt_example node_empty)))).
  vm_compute. reflexivity.
Defined.

(** C10.  A comment returned by either comment extractor has no timestamp,
    whatever the document node holds. *)
Theorem comment_timestamps_null (rt : Runtime) (node : ElementHandle) :
  (forall c, parse_modern_comment rt node = Some c -> Comment.timestamp c = None)
  /\ (forall c, parse_mbasic_comment rt node = Some c -> Comment.timestamp c = None).
Proof.
  split; intros c H.
  - unfold parse_modern_comment in H. returned H. all: reflexivity.
  - unfold parse_mbasic_comment in H. returned H. all: reflexivity.
Qed.

Lemma comment_timestamps_null_witness :
  exists c, parse_modern_comment rt_example node_see_more = Some c
            /\ Comment.timestamp c = None.
Proof.
  eexists. split; [vm_compute; reflexivity|].
  apply (proj1 (comment_timestamps_null rt_example node_see_more)).
  vm_compute. reflexivity.
Defined.

(** The gates on the content that the extractors have: [parse_modern_post]
    returns null rather than a record whose content is shorter than 5
    characters, and [parse_modern_comment] returns null rather than a
    record whose content is empty. *)
Lemma content_gates (rt : Runtime) (node : ElementHandle) :
  (forall p, parse_modern_post rt node = Some p ->
             (5 <= length (Post.content p))%nat)
  /\ (forall c, parse_modern_comment rt node = Some c ->
                Comment.content c <> []).
Proof.
  split.
  - intros p H. unfold parse_modern_post in H. returned H.
    all: cbn [Post.content];
      match goal with
      | Hgate : (_ || (length _ <? 5)%nat) = false |- _ =>
          apply orb_false_elim in Hgate as [_ Hlen];
          apply Nat.ltb_ge in Hlen; exact Hlen
      end.
  - intros c H. unfold parse_modern_comment in H. returned H.
    all: cbn [Comment.content];
      match goal with
      | Hgate : negb (nonempty ?x) = false |- ?x <> [] =>
          unfold nonempty in Hgate; rewrite negb_involutive in Hgate;
          by apply bool_decide_eq_false in Hgate
      end.
Qed.

Example content_gates_post :
  exists p, parse_modern_post rt_example node_post = Some p
            /\ Post.content p = py "Check this out!"
            /\ (5 <= length (Post.content p))%nat.
Proof.
  eexists. split_and!; [vm_compute; reflexivity..|].
  apply (proj1 (content_gates rt_example node_post)). vm_compute. reflexivity.
Qed.

(** C1.  The claim says that no extractor returns a record whose content has
    fewer than 5 characters.  The gate of [parse_modern_post] is missing
    from the two mbasic extractors: on a node with no text each of them
    returns a record with empty content.  [parse_modern_comment] tests
    only that the content is not empty: on a comment whose block reads
    "ab See more" it returns the content "ab". *)
Theorem extractors_return_short_content (rt : Runtime) :
  (exists c, parse_mbasic_comment rt node_empty = Some c
             /\ Comment.content c = [])
  /\ (exists p, parse_mbasic_post rt node_empty = Some p
                /\ Post.content p = [])
  /\ (exists c, parse_modern_comment rt node_see_more = Some c
                /\ Comment.content c = py "ab").
Proof.
  split_and!.
  - eexists; split; vm_compute; reflexivity.
  - eexists; split; vm_compute; reflexivity.
  - exists (Comment.mk (hashed_id rt "comment" 30 (py "ab"))
              (Author.mk (py "Unknown") None) (py "ab") None Reactions.zero []).
    split; [|reflexivity]. cbv -[hashed_id]. reflexivity.
Qed.

(** ** More on filter_comments: thresholds, the largest totals, the frame *)

Section FilterMore.
Local Open Scope Z_scope.
Variables min_reactions top_n : Z.
Variable rank : loc -> nat.

Lemma select_off (h : store) (l : list loc) :
  min_reactions <= 0 -> top_n <= 0 -> select h min_reactions top_n l = l.
Proof.
  intros Hm Ht. unfold select.
  destruct (Z.ltb_spec 0 min_reactions); [lia|].
  destruct (Z.ltb_spec 0 top_n); [lia|done].
Qed.

Lemma settled_off (h : store) (c : loc) :
  min_reactions <= 0 -> top_n <= 0 -> ranked rank h ->
  settled min_reactions top_n h c.
Proof.
  intros Hm Ht Hr. remember (rank c) as n eqn:Hn. revert c Hn.
  induction n as [n IH] using lt_wf_ind. intros c ->.
  constructor; [by apply select_off|].
  apply Forall_forall. intros x Hx. eapply IH; [by apply Hr | done].
Qed.

Lemma select_at_least (h : store) (l : list loc) (x : loc) :
  0 < min_reactions ->
  x ∈ select h min_reactions top_n l -> min_reactions <= total_of h x.
Proof.
  intros Hm. unfold select.
  destruct (Z.ltb_spec 0 min_reactions); [|lia].
  set (l1 := filter _ l).
  assert (x ∈ l1 -> min_reactions <= total_of h x) as H1.
  { by intros [? _]%list_elem_of_filter. }
  destruct (0 <? top_n); [|done].
  intros Hx%subseteq_take. rewrite sorted_desc_perm in Hx. auto.
Qed.

(** The comments one level offers to the limit: those that meet the
    threshold, all of them when there is none. *)
Lemma select_limit (h : store) (l : list loc) :
  0 < top_n ->
  select h min_reactions top_n l
  = take (Z.to_nat top_n)
      (sorted_desc (total_of h)
         (filter (fun c => min_reactions <= 0 \/ min_reactions <= total_of h c) l)).
Proof.
  intros Ht. unfold select. destruct (Z.ltb_spec 0 top_n); [|lia].
  do 2 f_equal. destruct (Z.ltb_spec 0 min_reactions).
  - apply list_filter_iff. intros c. lia.
  - symmetry. induction l as [|c l IH]; [done|].
    rewrite filter_cons. rewrite decide_True by lia. by f_equal.
Qed.

Lemma select_no_limit (h : store) (l : list loc) :
  top_n <= 0 ->
  select h min_reactions top_n l
  = filter (fun c => min_reactions <= 0 \/ min_reactions <= total_of h c) l.
Proof.
  intros Ht. unfold select. destruct (Z.ltb_spec 0 top_n); [lia|].
  destruct (Z.ltb_spec 0 min_reactions).
  - apply list_filter_iff. intros c. lia.
  - symmetry. induction l as [|c l IH]; [done|].
    rewrite filter_cons. rewrite decide_True by lia. by f_equal.
Qed.

(** What a sorted list leaves behind a prefix is no larger than the
    prefix. *)
Lemma sorted_take_drop (key : loc -> Z) (n : nat) (l : list loc) (x y : loc) :
  StronglySorted (at_least key) l ->
  y ∈ take n l -> x ∈ drop n l -> key x <= key y.
Proof.
  intros Hl. revert n. induction Hl as [|z l Hl IH Hz]; intros n Hy Hx.
  - rewrite take_nil in Hy. by apply elem_of_nil in Hy.
  - destruct n as [|n]; simpl in *; [by apply elem_of_nil in Hy|].
    apply elem_of_cons in Hy as [->|Hy]; [|by eapply IH].
    apply subseteq_drop in Hx. by eapply Forall_forall in Hz.
Qed.

Lemma survives_mono (h h' : store) (r r' : list loc) (c : loc) :
  (forall x, replies_of h' x ⊆ replies_of h x) -> r' ⊆ r ->
  survives h' r' c -> survives h r c.
Proof.
  intros Hh Hr. induction 1 as [c Hc|c x _ IH Hx].
  - apply survives_top. by apply Hr.
  - eapply survives_reply; [done|]. by apply Hh.
Qed.

Lemma survives_below (h : store) (r rs : list loc) (c0 c : loc) :
  c0 ∈ r -> rs ⊆ replies_of h c0 -> survives h rs c -> survives h r c.
Proof.
  intros H0 Hrs. induction 1 as [c Hc|c x _ IH Hx].
  - eapply survives_reply; [by apply survives_top|]. by apply Hrs.
  - by eapply survives_reply.
Qed.

(** The loop changes no comment outside the comments of its list and what
    is below them. *)
Lemma for_each_frame (n : nat)
    (recur : store -> list loc -> option (store * list loc)) :
  (forall h cs, ranked rank h -> Forall (fun c => (rank c < n)%nat) cs ->
     exists h', recur h cs = Some (h', select h min_reactions top_n cs)
                /\ filtered_from min_reactions top_n h h'
                /\ Forall (settled min_reactions top_n h')
                     (select h min_reactions top_n cs)) ->
  (forall h cs h' r, ranked rank h -> Forall (fun c => (rank c < n)%nat) cs ->
     recur h cs = Some (h', r) ->
     forall c, ~ survives h r c -> h' !!! c = h !!! c) ->
  forall l h h', ranked rank h -> Forall (fun c => (rank c < S n)%nat) l ->
    for_each (filter_replies recur) h l = Some h' ->
    forall c, ~ survives h l c -> h' !!! c = h !!! c.
Proof.
  intros Hrun Hframe. induction l as [|c0 l IH]; intros h h' Hr Hl Hloop c Hc.
  - cbn in Hloop. by injection Hloop as <-.
  - apply Forall_cons in Hl as [Hc0 Hl]. cbn [for_each] in Hloop.
    unfold filter_replies at 1 in Hloop.
    case_bool_decide as Hnil.
    + apply (IH h h' Hr Hl Hloop). intros Hs. apply Hc.
      apply (survives_mono h h (c0 :: l) l); [done | by apply list_subseteq_cons | done].
    + destruct (Hrun h (replies_of h c0) Hr) as (h1 & Hrun1 & Hstep1 & Hall1).
      { apply Forall_forall. intros x Hx. pose proof (Hr _ _ Hx). lia. }
      rewrite Hrun1 in Hloop. cbn [mbind option_bind] in Hloop.
      destruct (step_assign min_reactions top_n rank h h1 c0 Hr Hnil Hstep1 Hall1)
        as [Hstep2 _].
      set (h2 := <[c0 := _]> h1) in *.
      pose proof (step_ranked min_reactions top_n rank _ _ Hstep2 Hr) as Hr2.
      transitivity (h2 !!! c).
      { apply (IH h2 h' Hr2 Hl Hloop). intros Hs. apply Hc.
        apply (survives_mono h h2 (c0 :: l) l);
          [|by apply list_subseteq_cons|done].
        intros x. by eapply step_subseteq. }
      assert (c <> c0) as Hne.
      { intros ->. apply Hc. apply survives_top, list_elem_of_here. }
      unfold h2. rewrite lookup_total_insert_ne by done.
      eapply Hframe; [done| |done|].
      { apply Forall_forall. intros x Hx. pose proof (Hr _ _ Hx). lia. }
      intros Hs. apply Hc.
      apply (survives_below h (c0 :: l)
               (select h min_reactions top_n (replies_of h c0)) c0); [apply list_elem_of_here | apply select_subseteq | done].
Qed.

Lemma filter_comments_frame_run (n : nat) (h h' : store) (cs r : list loc) :
  ranked rank h -> Forall (fun c => (rank c < n)%nat) cs ->
  filter_comments (S n) h cs min_reactions top_n = Some (h', r) ->
  forall c, ~ survives h r c -> h' !!! c = h !!! c.
Proof.
  revert h h' cs r. induction n as [|n IH]; intros h h' cs r Hr Hcs Hrun c Hc.
  - destruct cs as [|c0 cs]; [|apply Forall_cons in Hcs as [? _]; lia].
    rewrite filter_comments_S, select_nil in Hrun. cbn in Hrun.
    by injection Hrun as <- <-.
  - rewrite filter_comments_S in Hrun.
    destruct (for_each _ h _) as [h1|] eqn:Hloop; [|done].
    cbn in Hrun. injection Hrun as <- <-.
    eapply (for_each_frame n _ (filter_comments_run min_reactions top_n rank n)
              (fun h cs h' r => IH h h' cs r));
      [done| |done..].
    apply Forall_forall. intros x Hx%select_subseteq.
    by eapply Forall_forall in Hcs.
Qed.

End FilterMore.

(** X1.  With no threshold and no limit ([min_reactions <= 0] and
    [top_n <= 0]) [filter_comments] on a store without cycles returns the
    list it was given and leaves every comment, replies included, as it
    was. *)
Theorem filter_comments_no_thresholds (rank : loc -> nat) (fuel : nat)
    (h : store) (comments : list loc) (min_reactions top_n : Z) :
  ranked rank h ->
  Forall (fun c => rank c < fuel)%nat comments ->
  (min_reactions <= 0)%Z -> (top_n <= 0)%Z ->
  filter_comments (S fuel) h comments min_reactions top_n = Some (h, comments).
Proof.
  intros Hr Hfuel Hm Ht.
  apply (filter_comments_settled min_reactions top_n rank); [done..| |].
  - apply Forall_forall. intros c _. by apply (settled_off _ _ rank).
  - by apply select_off.
Qed.

Lemma filter_comments_no_thresholds_witness :
  filter_comments 4 store_example [1; 4; 5]%positive 0 0
  = Some (store_example, [1; 4; 5]%positive).
Proof.
  apply (filter_comments_no_thresholds rank_example 3 store_example
           [1; 4; 5]%positive 0 0).
  - apply ranked_example.
  - repeat constructor; vm_compute; lia.
  - lia.
  - lia.
Defined.

(** X2.  With a threshold [min_reactions > 0], after [filter_comments] on a
    store without cycles every comment that survives, the comments returned
    and at every depth the replies left below them, has a reaction total of
    at least [min_reactions]. *)
Theorem filter_comments_min_reactions (rank : loc -> nat) (fuel : nat)
    (h : store) (comments : list loc) (min_reactions top_n : Z) :
  ranked rank h ->
  Forall (fun c => rank c < fuel)%nat comments ->
  (0 < min_reactions)%Z ->
  exists h' r,
    filter_comments (S fuel) h comments min_reactions top_n = Some (h', r)
    /\ forall c, survives h' r c -> (min_reactions <= total_of h' c)%Z.
Proof.
  intros Hr Hfuel Hm.
  destruct (filter_comments_run min_reactions top_n rank fuel h comments Hr Hfuel)
    as (h' & Hrun & Hstep & Hall).
  exists h', (select h min_reactions top_n comments). split; [done|].
  intros c Hc. destruct Hc as [c Hc|c x Hc Hx].
  - rewrite (step_total min_reactions top_n h h') by done.
    by eapply select_at_least.
  - apply (survives_settled min_reactions top_n) in Hc; [|done].
    destruct Hc as [c Hfix _]. rewrite <- Hfix in Hx.
    by eapply select_at_least.
Qed.

Lemma filter_comments_min_reactions_witness :
  exists h' r,
    filter_comments 4 store_example [1; 4; 5]%positive 3 0 = Some (h', r)
    /\ forall c, survives h' r c -> (3 <= total_of h' c)%Z.
Proof.
  apply (filter_comments_min_reactions rank_example 3 store_example
           [1; 4; 5]%positive 3 0).
  - apply ranked_example.
  - repeat constructor; vm_compute; lia.
  - lia.
Defined.

(** X3.  With a limit [top_n > 0], [filter_comments] on a store without
    cycles keeps the largest totals: it returns [top_n] comments, or all
    the comments that meet the threshold when they are fewer, and a comment
    of the input that meets the threshold and is not returned has a total no
    larger than that of any comment returned. *)
Theorem filter_comments_keeps_largest (rank : loc -> nat) (fuel : nat)
    (h : store) (comments : list loc) (min_reactions top_n : Z) :
  ranked rank h ->
  Forall (fun c => rank c < fuel)%nat comments ->
  (0 < top_n)%Z ->
  let meets c := (min_reactions <= 0 \/ min_reactions <= total_of h c)%Z in
  exists h' r,
    filter_comments (S fuel) h comments min_reactions top_n = Some (h', r)
    /\ length r = Nat.min (Z.to_nat top_n) (length (filter meets comments))
    /\ forall x y, x ∈ comments -> meets x -> x ∉ r -> y ∈ r ->
         (total_of h x <= total_of h y)%Z.
Proof.
  intros Hr Hfuel Ht meets.
  destruct (filter_comments_run min_reactions top_n rank fuel h comments Hr Hfuel)
    as (h' & Hrun & _).
  exists h', (select h min_reactions top_n comments). split; [done|].
  rewrite select_limit by done. fold meets.
  set (l := sorted_desc (total_of h) (filter meets comments)).
  split.
  - rewrite length_take. unfold l. by rewrite sorted_desc_perm.
  - intros x y Hx Hmx Hnx Hy.
    apply (sorted_take_drop (total_of h) (Z.to_nat top_n) l); [|done|].
    + apply sorted_desc_sorted.
    + assert (x ∈ l) as Hxl.
      { unfold l. rewrite sorted_desc_perm. by apply list_elem_of_filter. }
      rewrite <- (take_drop (Z.to_nat top_n) l) in Hxl.
      apply elem_of_app in Hxl as [?|?]; done.
Qed.

Lemma filter_comments_keeps_largest_witness :
  let meets c := (0 <= 0 \/ 0 <= total_of store_example c)%Z in
  exists h' r,
    filter_comments 4 store_example [1; 4; 5]%positive 0 2 = Some (h', r)
    /\ length r = Nat.min (Z.to_nat 2) (length (filter meets [1; 4; 5]%positive))
    /\ forall x y, x ∈ [1; 4; 5]%positive -> meets x -> x ∉ r -> y ∈ r ->
         (total_of store_example x <= total_of store_example y)%Z.
Proof.
  apply (filter_comments_keeps_largest rank_example 3 store_example
           [1; 4; 5]%positive 0 2).
  - apply ranked_example.
  - repeat constructor; vm_compute; lia.
  - lia.
Defined.

(** X4.  With no limit ([top_n <= 0]) [filter_comments] on a store without
    cycles returns exactly the comments of the input that meet the
    threshold, each as often as the input has it and in the order of the
    input. *)
Theorem filter_comments_no_limit (rank : loc -> nat) (fuel : nat)
    (h : store) (comments : list loc) (min_reactions top_n : Z) :
  ranked rank h ->
  Forall (fun c => rank c < fuel)%nat comments ->
  (top_n <= 0)%Z ->
  exists h',
    filter_comments (S fuel) h comments min_reactions top_n
    = Some (h', filter (fun c => (min_reactions <= 0
                                  \/ min_reactions <= total_of h c)%Z) comments).
Proof.
  intros Hr Hfuel Ht.
  destruct (filter_comments_run min_reactions top_n rank fuel h comments Hr Hfuel)
    as (h' & Hrun & _).
  exists h'. by rewrite <- (select_no_limit min_reactions top_n).
Qed.

Lemma filter_comments_no_limit_witness :
  exists h',
    filter_comments 4 store_example [1; 4; 5]%positive 3 0
    = Some (h', filter (fun c => (3 <= 0 \/ 3 <= total_of store_example c)%Z)
                  [1; 4; 5]%positive).
Proof.
  apply (filter_comments_no_limit rank_example 3 store_example
           [1; 4; 5]%positive 3 0).
  - apply ranked_example.
  - repeat constructor; vm_compute; lia.
  - lia.
Defined.

(** X5.  [filter_comments] on a store without cycles touches only what is
    below the comments it returns: a comment that is neither returned nor,
    at any depth, a reply below a returned comment in the store before the
    call is after the call as it was, replies included.  So the replies of a
    comment that is filtered out are not filtered. *)
Theorem filter_comments_frame (rank : loc -> nat) (fuel : nat)
    (h : store) (comments : list loc) (min_reactions top_n : Z) :
  ranked rank h ->
  Forall (fun c => rank c < fuel)%nat comments ->
  exists h' r,
    filter_comments (S fuel) h comments min_reactions top_n = Some (h', r)
    /\ forall c, ~ survives h r c -> h' !!! c = h !!! c.
Proof.
  intros Hr Hfuel.
  destruct (filter_comments_run min_reactions top_n rank fuel h comments Hr Hfuel)
    as (h' & Hrun & _).
  exists h', (select h min_reactions top_n comments). split; [done|].
  by eapply filter_comments_frame_run.
Qed.

Lemma filter_comments_frame_witness :
  exists h' r,
    filter_comments 4 store_example [1; 4; 5]%positive 3 0 = Some (h', r)
    /\ forall c, ~ survives store_example r c -> h' !!! c = store_example !!! c.
Proof.
  apply (filter_comments_frame rank_example 3 store_example
           [1; 4; 5]%positive 3 0).
  - apply ranked_example.
  - repeat constructor; vm_compute; lia.
Defined.

(** ** Character classes *)

Ltac bools :=
  repeat match goal with
  | H : _ || _ = true |- _ => apply orb_prop in H as [H|H]
  | H : _ && _ = true |- _ => apply andb_prop in H as [? H]
  | H : (_ <=? _) = true |- _ => apply N.leb_le in H
  | H : (_ <? _) = true |- _ => apply N.ltb_lt in H
  | H : (_ =? _) = true |- _ => apply N.eqb_eq in H
  end.





(** ** Greedy repetition and its backtracking *)

Section MatcherMore.
Context {R : Type}.



End MatcherMore.

(** ** parse_timestamp: the relative forms *)



Lemma lstrip_spaces (s : str) : forallb isspace s = true -> lstrip s = [].
Proof.
  induction s as [|c s IH]; simpl; [done|].
  intros [-> Hs]%andb_prop. by apply IH.
Qed.











(** ** parse_timestamp: what it raises *)














(** ** parse_timestamp: blank text and "yesterday" *)

(** X9.  A text that is empty or holds nothing but white space has no
    timestamp: [parse_timestamp] returns null and raises nothing. *)
Theorem parse_timestamp_blank (rt : Runtime) (text : str) :
  forallb isspace text = true -> parse_timestamp rt text = Ok None.
Proof.
  intros Hws. unfold parse_timestamp. case_bool_decide; [done|].
  unfold strip. rewrite (lstrip_spaces text Hws). reflexivity.
Qed.

Lemma parse_timestamp_blank_witness :
  parse_timestamp rt_example (py "  ") = Ok None.
Proof. apply (parse_timestamp_blank rt_example (py "  ")). reflexivity. Defined.

Lemma lower_starts_y (c : char) (t p : str) :
  startswith (lower (c :: t)) (121 :: p) = true -> c = 121 \/ c = 89.
Proof.
  unfold lower. cbn [flat_map]. unfold lower_char, is_upper_ascii.
  destruct ((65 <=? c) && (c <=? 90)) eqn:Hu; cbn [app startswith].
  - intros [H _]%andb_prop. bools. lia.
  - destruct (c =? 304); [done|]. destruct (c =? 8490); [done|].
    cbn [app startswith]. intros [H _]%andb_prop. bools. lia.
Qed.

(** X10.  A text that, stripped and lowercased, starts with "yesterday" is
    read as one day before the current time, whatever follows the word: no
    relative pattern can take such a text first. *)
Theorem parse_timestamp_yesterday (rt : Runtime) (text : str) :
  startswith (lower (strip text)) (py "yesterday") = true ->
  parse_timestamp rt text = Some <$> sub_timedelta (now rt) (days 1).
Proof.
  intros Hy. unfold parse_timestamp. case_bool_decide as Htext.
  { subst text. discriminate Hy. }
  rewrite Hy. destruct (strip text) as [|c t]; [discriminate Hy|].
  apply lower_starts_y in Hy as [-> | ->]; reflexivity.
Qed.

Lemma parse_timestamp_yesterday_witness :
  parse_timestamp rt_example (py " Yesterday at 3:45 PM")
  = Some <$> sub_timedelta (now rt_example) (days 1).
Proof.
  apply (parse_timestamp_yesterday rt_example (py " Yesterday at 3:45 PM")).
  reflexivity.
Defined.

(** ** parse_timestamp: "Just now" and the long units *)

Lemma relative_re_no_digit (unit : string) (to_end : bool) (c : char) (t : str) :
  isdecimal c = false -> re_match (relative_re unit to_end) (c :: t) = None.
Proof.
  intros Hc. unfold re_match, relative_re, seqs. cbn [foldr rmatch one_or_more].
  by rewrite Hc.
Qed.

(** A character whose lowercase form starts like the text that starts with
    the small letter or the space [x] is [x] in one of its two cases. *)
Lemma lower_starts_cons (x c : char) (t p : str) :
  is_lower_ascii x = true \/ x = 32 -> x <> 105 -> x <> 107 ->
  startswith (lower (c :: t)) (x :: p) = true ->
  ieq x c = true /\ isdecimal c = false /\ startswith (lower t) p = true.
Proof.
  intros Hx Hi Hk. unfold lower. cbn [flat_map].
  unfold lower_char, ieq, is_upper_ascii, is_lower_ascii in *.
  assert (c = x \/ c + 32 = x -> isdecimal c = false) as Hnd.
  { intros Hc. destruct (isdecimal c) eqn:Hd; [|done]. exfalso.
    unfold isdecimal in Hd. apply existsb_exists in Hd as (r & Hr & Hin).
    unfold in_run in Hin.
    assert (r = (48, 10) \/ 1632 <= fst r) as Hfst.
    { unfold decimal_runs in Hr. simpl in Hr.
      destruct Hr as [<-|Hr]; [by left|]. right.
      repeat (destruct Hr as [<-|Hr]; [simpl; lia|]). done. }
    destruct Hfst as [-> | Hfst]; simpl in Hin;
      destruct Hx as [Hx| ->]; bools; destruct Hc; lia. }
  destruct ((65 <=? c) && (c <=? 90)) eqn:Hu; cbn [app startswith].
  - intros [H Ht]%andb_prop. bools.
    split_and!; [|apply Hnd; lia|done].
    destruct ((65 <=? x) && (x <=? 90)) eqn:Hxu.
    + bools. destruct Hx as [Hx| ->]; bools; lia.
    + apply orb_true_iff. left. apply orb_true_iff. left.
      apply orb_true_iff. left. apply N.eqb_eq. lia.
  - destruct (N.eqb_spec c 304) as [->|H304].
    { cbn [app startswith]. intros [H _]%andb_prop. bools. lia. }
    destruct (N.eqb_spec c 8490) as [->|H8490].
    { cbn [app startswith]. intros [H _]%andb_prop. bools. lia. }
    cbn [app startswith]. intros [H Ht]%andb_prop. bools. subst c.
    split_and!; [|apply Hnd; by left|done].
    rewrite Hu, N.eqb_refl. done.
Qed.

Ltac lower_prefix_step Hy c t H Hd :=
  destruct t as [|c t]; [discriminate Hy|];
  apply lower_starts_cons in Hy as (H & Hd & Hy);
  [|first [left; reflexivity | right; reflexivity]|discriminate..].

(** X26.  A text that, stripped and lowercased, starts with "just now" is
    read as the current time, whatever follows the words. *)
Theorem parse_timestamp_just_now (rt : Runtime) (text : str) :
  startswith (lower (strip text)) (py "just now") = true ->
  parse_timestamp rt text = Ok (Some (now rt)).
Proof.
  intros Hy. unfold parse_timestamp. case_bool_decide as Htext.
  { subst text. discriminate Hy. }
  change (py "just now") with [106; 117; 115; 116; 32; 110; 111; 119] in Hy.
  destruct (strip text) as [|c1 t]; [discriminate Hy|].
  apply lower_starts_cons in Hy as (H1 & Hd1 & Hy);
    [|by left|discriminate..].
  lower_prefix_step Hy c2 t H2 Hd2.
  lower_prefix_step Hy c3 t H3 Hd3.
  lower_prefix_step Hy c4 t H4 Hd4.
  lower_prefix_step Hy c5 t H5 Hd5.
  lower_prefix_step Hy c6 t H6 Hd6.
  lower_prefix_step Hy c7 t H7 Hd7.
  lower_prefix_step Hy c8 t H8 Hd8.
  unfold relative_patterns. cbn [try_relative].
  rewrite !relative_re_no_digit by done.
  change (py "Just now") with [74; 117; 115; 116; 32; 110; 111; 119].
  unfold re_match. cbn [ilit foldr rmatch].
  change (ieq 74 c1) with (ieq 106 c1).
  by rewrite H1, H2, H3, H4, H5, H6, H7, H8.
Qed.

Lemma parse_timestamp_just_now_witness :
  parse_timestamp rt_example (py "JUST NOW ") = Ok (Some (now rt_example)).
Proof.
  apply (parse_timestamp_just_now rt_example (py "JUST NOW ")). reflexivity.
Defined.













(** ** extract_post_id: the identifier returned and the failures *)

Lemma run_of_forallb (p : char -> bool) (s : str) : forallb p (run_of p s) = true.
Proof.
  induction s as [|c s IH]; simpl; [done|].
  destruct (p c) eqn:Hc; simpl; [by rewrite Hc|done].
Qed.

Lemma after_run_head (p : char -> bool) (s : str) :
  match after_run p s with c :: _ => p c = false | [] => True end.
Proof.
  induction s as [|c s IH]; simpl; [done|].
  by destruct (p c) eqn:Hc.
Qed.

Lemma posts_digits_cons (c : char) (url : str) :
  posts_digits (c :: url)
  = if startswith (c :: url) (py "/posts/")
       && nonempty (run_of isdecimal (drop 7 (c :: url)))
    then Some (run_of isdecimal (drop 7 (c :: url)))
    else posts_digits url.
Proof. reflexivity. Qed.

Lemma pfbid_token_cons (c : char) (url : str) :
  pfbid_token (c :: url)
  = if startswith (c :: url) (py "pfbid")
       && nonempty (run_of alnum_ascii (drop 5 (c :: url)))
    then Some (py "pfbid" ++ run_of alnum_ascii (drop 5 (c :: url)))
    else pfbid_token url.
Proof. reflexivity. Qed.

(** The place of a match of [/posts/(\d+)] in the address. *)
Lemma posts_digits_some (url d : str) :
  posts_digits url = Some d ->
  exists pre post,
    url = pre ++ py "/posts/" ++ d ++ post
    /\ d <> [] /\ forallb isdecimal d = true
    /\ match post with c :: _ => isdecimal c = false | [] => True end.
Proof.
  revert d. induction url as [|c url IH]; intros d.
  - discriminate.
  - rewrite posts_digits_cons.
    destruct (startswith (c :: url) (py "/posts/")
              && nonempty (run_of isdecimal (drop 7 (c :: url)))) eqn:Htest.
    + intros Hd. apply (inj Some) in Hd. subst d.
      apply andb_prop in Htest as [Hs Hn].
      exists [], (after_run isdecimal (drop 7 (c :: url))). split_and!.
      * rewrite app_nil_l, run_after. exact (startswith_app _ _ Hs).
      * unfold nonempty in Hn. apply negb_true_iff in Hn.
        by apply bool_decide_eq_false in Hn.
      * apply run_of_forallb.
      * apply after_run_head.
    + intros (pre & post & -> & ?)%IH. by exists (c :: pre), post.
Qed.

(** The place of a match of [pfbid[a-zA-Z0-9]+] in the address. *)
Lemma pfbid_token_some (url tok : str) :
  pfbid_token url = Some tok ->
  exists pre t post,
    url = pre ++ tok ++ post /\ tok = py "pfbid" ++ t
    /\ t <> [] /\ forallb alnum_ascii t = true
    /\ match post with c :: _ => alnum_ascii c = false | [] => True end.
Proof.
  revert tok. induction url as [|c url IH]; intros tok.
  - discriminate.
  - rewrite pfbid_token_cons.
    destruct (startswith (c :: url) (py "pfbid")
              && nonempty (run_of alnum_ascii (drop 5 (c :: url)))) eqn:Htest.
    + intros Htok. apply (inj Some) in Htok. subst tok.
      apply andb_prop in Htest as [Hs Hn].
      exists [], (run_of alnum_ascii (drop 5 (c :: url))),
        (after_run alnum_ascii (drop 5 (c :: url))). split_and!.
      * rewrite app_nil_l, <- app_assoc, run_after.
        exact (startswith_app _ _ Hs).
      * done.
      * unfold nonempty in Hn. apply negb_true_iff in Hn.
        by apply bool_decide_eq_false in Hn.
      * apply run_of_forallb.
      * apply after_run_head.
    + intros (pre & t & post & -> & ?)%IH. by exists (c :: pre), t, post.
Qed.

Lemma extract_post_id_found (rt : Runtime) (url id : str) :
  extract_post_id rt url = Ok (Some id) ->
  exists parsed,
    urlparse rt url = Ok parsed
    /\ match story_fbid_of rt url parsed with
       | Some story_fbid => Some story_fbid
       | None =>
           match posts_digits url with
           | Some digits => Some digits
           | None => pfbid_token url
           end
       end = Some id.
Proof.
  intros H. destruct (urlparse rt url) as [parsed|e] eqn:Hp.
  - exists parsed. split; [done|].
    rewrite (extract_post_id_eq rt url parsed Hp) in H. congruence.
  - unfold extract_post_id in H. rewrite Hp in H.
    by case_bool_decide.
Qed.

Lemma found_id_not_empty (rt : Runtime) (url id : str) :
  extract_post_id rt url = Ok (Some id) -> id <> [].
Proof.
  intros (parsed & _ & H)%extract_post_id_found.
  destruct (story_fbid_of rt url parsed) as [v|] eqn:Hv.
  - unfold story_fbid_of in Hv.
    destruct (contains _ _); [|done].
    destruct (_ !! _) as [[|v' vs]|]; [done| |done].
    case_bool_decide; congruence.
  - destruct (posts_digits url) as [d|] eqn:Hd.
    + apply posts_digits_some in Hd as (_ & _ & _ & Hne & _). congruence.
    + apply pfbid_token_some in H as (_ & t & _ & _ & -> & _). done.
Qed.

(** X11.  An identifier that [extract_post_id] returns is never the empty
    string: the value of [story_fbid] is used only when it is not empty,
    and the two patterns take at least one character. *)
Theorem extract_post_id_not_empty (rt : Runtime) (url id : str) :
  extract_post_id rt url = Ok (Some id) -> id <> [].
Proof. apply found_id_not_empty. Qed.

Lemma extract_post_id_not_empty_witness :
  extract_post_id rt_example (py "https://x/groups/g/posts/998877")
    = Ok (Some (py "998877"))
  /\ py "998877" <> [].
Proof.
  split; [vm_compute; reflexivity|].
  apply (extract_post_id_not_empty rt_example
           (py "https://x/groups/g/posts/998877")).
  vm_compute. reflexivity.
Defined.

(** X12.  For an address without the text "story_fbid", an identifier
    returned by [extract_post_id] is a piece of the address: either the
    whole run of decimal digits that follows a "/posts/", or a token that
    starts with "pfbid" and goes on with all the ASCII letters and digits
    that follow it, at least one. *)
Theorem extract_post_id_piece_of_url (rt : Runtime) (url id : str) :
  extract_post_id rt url = Ok (Some id) ->
  contains url (py "story_fbid") = false ->
  (exists pre post,
     url = pre ++ py "/posts/" ++ id ++ post
     /\ id <> [] /\ forallb isdecimal id = true
     /\ match post with c :: _ => isdecimal c = false | [] => True end)
  \/ (exists pre t post,
        url = pre ++ id ++ post /\ id = py "pfbid" ++ t
        /\ t <> [] /\ forallb alnum_ascii t = true
        /\ match post with c :: _ => alnum_ascii c = false | [] => True end).
Proof.
  intros (parsed & _ & H)%extract_post_id_found Hstory.
  unfold story_fbid_of in H. rewrite Hstory in H.
  destruct (posts_digits url) as [d|] eqn:Hd.
  - left. injection H as <-. by apply posts_digits_some.
  - right. by apply pfbid_token_some.
Qed.

Lemma extract_post_id_piece_of_url_witness :
  (exists pre post,
     py "https://x/groups/g/posts/998877?a=1"
       = pre ++ py "/posts/" ++ py "998877" ++ post
     /\ py "998877" <> [] /\ forallb isdecimal (py "998877") = true
     /\ match post with c :: _ => isdecimal c = false | [] => True end)
  \/ (exists pre t post,
        py "https://x/groups/g/posts/998877?a=1" = pre ++ py "998877" ++ post
        /\ py "998877" = py "pfbid" ++ t
        /\ t <> [] /\ forallb alnum_ascii t = true
        /\ match post with c :: _ => alnum_ascii c = false | [] => True end).
Proof.
  apply (extract_post_id_piece_of_url rt_example
           (py "https://x/groups/g/posts/998877?a=1") (py "998877")).
  - vm_compute. reflexivity.
  - vm_compute. reflexivity.
Defined.

(** What [urlparse] cuts out of an address is made of characters of the
    address. *)
Section UrlChars.
Variable P : char -> Prop.

Lemma Forall_lstrip_c0 (s : str) : Forall P s -> Forall P (lstrip_c0 s).
Proof.
  induction 1 as [|c s Hc Hs IH]; simpl; [done|].
  destruct (c <=? 32); [done | by constructor].
Qed.

Lemma Forall_replace_nil (old : char) (s : str) :
  Forall P s -> Forall P (replace old [] s).
Proof.
  unfold replace. induction 1 as [|c s Hc Hs IH]; simpl; [done|].
  destruct (c =? old); simpl; [done | by constructor].
Qed.

Lemma Forall_split1 (sep : char) (s : str) :
  Forall P s ->
  Forall P (split1 sep s).1 /\ from_option (Forall P) True (split1 sep s).2.
Proof.
  induction 1 as [|c s Hc Hs IH]; simpl; [done|].
  destruct (c =? sep); simpl; [done|].
  destruct (split1 sep s) as [a b]. simpl in *.
  split; [constructor|]; tauto.
Qed.

Lemma Forall_break_at (stop : char -> bool) (s : str) :
  Forall P s -> Forall P (break_at stop s).1.
Proof.
  induction 1 as [|c s Hc Hs IH]; simpl; [done|].
  destruct (stop c); simpl; [done|].
  destruct (break_at stop s) as [a b]. simpl in *. by constructor.
Qed.

End UrlChars.

Lemma one_of_absent (s : str) (c : char) :
  Forall (fun x => x <> c) s -> one_of s c = false.
Proof.
  unfold one_of. induction 1 as [|x s Hx Hs IH]; simpl; [done|].
  rewrite IH, orb_false_r. apply N.eqb_neq. congruence.
Qed.

(** [urlparse] accepts an address made of ASCII characters without square
    brackets. *)
Lemma urlparse_returns (rt : Runtime) (url : str) :
  Forall (fun c => c < 128 /\ c <> ch "[" /\ c <> ch "]") url ->
  exists parsed, urlparse rt url = Ok parsed.
Proof.
  set (P := fun c => c < 128 /\ c <> ch "[" /\ c <> ch "]").
  intros Hurl. unfold urlparse.
  set (url1 := replace LF [] (replace CR [] (replace TAB [] (lstrip_c0 url)))).
  assert (Forall P url1) as H1
    by (by do 3 apply Forall_replace_nil; apply Forall_lstrip_c0).
  match goal with
  | |- context [let 'pair scheme url := ?x in _] =>
      assert (Forall P x.2) as H2; [|destruct x as [scheme url2]]
  end.
  { destruct (Forall_split1 P (ch ":") url1 H1) as [_ Hb].
    destruct (split1 (ch ":") url1) as [[|c a] [b|]]; simpl in *; try done.
    by destruct (_ && _). }
  simpl in H2.
  assert (forall netloc : str, Forall P netloc ->
            one_of netloc (ch "[") = false /\ one_of netloc (ch "]") = false
            /\ forallb (fun c => c <? 128) netloc = true) as Hnet.
  { intros netloc Hn. split_and!.
    - apply one_of_absent. eapply Forall_impl; [done|]. by intros c (_ & ? & _).
    - apply one_of_absent. eapply Forall_impl; [done|]. by intros c (_ & _ & ?).
    - apply forallb_forall. intros c Hc%list_elem_of_In.
      eapply Forall_forall in Hn as [Hn _]; [|done]. by apply N.ltb_lt. }
  destruct (startswith url2 (py "//")).
  - pose proof (Forall_break_at P (one_of (py "/?#")) (drop 2 url2)
                  (Forall_drop _ _ _ H2)) as Hb.
    destruct (break_at _ _) as [netloc rest]. simpl in Hb.
    destruct (Hnet netloc Hb) as (-> & -> & Hascii).
    cbn [andb orb negb mbind exc_bind].
    destruct (split1 (ch "#") rest) as [a [b|]];
      destruct (split1 (ch "?") a) as [a' [b'|]];
      rewrite Hascii, andb_false_r; cbn [negb andb];
      destruct (_ && _); try destruct (splitparams _); eauto.
  - cbn [mbind exc_bind].
    destruct (split1 (ch "#") url2) as [a [b|]];
      destruct (split1 (ch "?") a) as [a' [b'|]];
      cbn [negb andb bool_decide decide_rel]; rewrite bool_decide_eq_true_2 by done;
      cbn [negb andb];
      destruct (_ && _); try destruct (splitparams _); eauto.
Qed.

(** X13.  [extract_post_id] raises nothing on an address made of ASCII
    characters without square brackets: the only call that can raise is
    [urlparse], for the brackets or the non-ASCII characters of a host. *)
Theorem extract_post_id_ascii_returns (rt : Runtime) (url : str) :
  Forall (fun c => c < 128 /\ c <> ch "[" /\ c <> ch "]") url ->
  exists r, extract_post_id rt url = Ok r.
Proof.
  intros (parsed & Hp)%(urlparse_returns rt).
  rewrite (extract_post_id_eq rt url parsed Hp). eauto.
Qed.

Lemma extract_post_id_ascii_returns_witness :
  exists r, extract_post_id rt_example (py "https://x/groups/g/posts/998877") = Ok r.
Proof.
  apply (extract_post_id_ascii_returns rt_example
           (py "https://x/groups/g/posts/998877")).
  repeat constructor; discriminate.
Defined.

(** ** More on the extractors *)

(** Follow a returned record back through the body of an extractor and keep
    what every call returned and how every test went. *)
Ltac traced H :=
  repeat first
    [ apply try_bind in H as (? & ? & H); cbv beta in H
    | match type of H with
      | try_or_none (Ok None) = Some _ => discriminate H
      | try_or_none (Ok (Some _)) = Some _ =>
          apply (inj Some) in H; subst
      | try_or_none (let 'pair _ _ := ?x in _) = Some _ => destruct x eqn:?
      | try_or_none (if ?c then _ else _) = Some _ => destruct c eqn:?
      | try_or_none (match ?x with _ => _ end) = Some _ => destruct x eqn:?
      | try_or_none (let _ := _ in _) = Some _ => cbv zeta in H
      end ].

(** X14.  The four extractors answer a node that has left the page with
    null: the error of the first call on the node is caught. *)
Theorem extractors_detached (rt : Runtime) (node : ElementHandle) :
  attached node = false ->
  parse_modern_post rt node = None
  /\ parse_mbasic_post rt node = None
  /\ parse_modern_comment rt node = None
  /\ parse_mbasic_comment rt node = None.
Proof.
  intros Hgone.
  unfold parse_modern_post, parse_mbasic_post, parse_modern_comment,
    parse_mbasic_comment, query_selector, query_selector_all, inner_text.
  by rewrite Hgone.
Qed.

Lemma extractors_detached_witness :
  parse_modern_post rt_example (Element 3 false (py "gone") [] []) = None
  /\ parse_mbasic_post rt_example (Element 3 false (py "gone") [] []) = None
  /\ parse_modern_comment rt_example (Element 3 false (py "gone") [] []) = None
  /\ parse_mbasic_comment rt_example (Element 3 false (py "gone") [] []) = None.
Proof.
  apply (extractors_detached rt_example (Element 3 false (py "gone") [] [])).
  reflexivity.
Defined.

(** X15.  [parse_modern_post] takes no post from feed noise: when one of
    the markers "People you may know", "Suggested for you" or "Groups you
    might like" stands in the first 100 characters of the text of the
    node, the result is null. *)
Theorem parse_modern_post_skips_noise (rt : Runtime) (article : ElementHandle)
    (all_text : str) :
  inner_text article = Ok all_text ->
  existsb (contains (take 100 all_text)) skip_posts = true ->
  parse_modern_post rt article = None.
Proof.
  intros Htext Hnoise.
  destruct (parse_modern_post rt article) as [p|] eqn:H; [exfalso|done].
  unfold parse_modern_post in H. traced H.
  all: match goal with
       | Hskip : (_ || existsb (contains (take 100 ?t)) skip_posts) = false |- _ =>
           replace t with all_text in Hskip by congruence;
           rewrite Hnoise, orb_true_r in Hskip; discriminate Hskip
       end.
Qed.

Lemma parse_modern_post_skips_noise_witness :
  parse_modern_post rt_example
    (Element 5 true (py "Suggested for you and some more text") [] []) = None.
Proof.
  apply (parse_modern_post_skips_noise rt_example _
           (py "Suggested for you and some more text")); reflexivity.
Defined.

(** Take apart a block of calls that has returned. *)
Ltac ok_inv H :=
  repeat match type of H with
  | (?m ≫= _) = Ok _ => destruct m eqn:?; cbn [mbind exc_bind] in H
  | (_ <$> ?m) = Ok _ => destruct m eqn:?; cbn [fmap exc_fmap] in H
  | (if ?c then _ else _) = Ok _ => destruct c eqn:?
  | match ?x with _ => _ end = Ok _ => destruct x eqn:?
  | Raise _ = Ok _ => discriminate H
  end.

Lemma str_in_false (s : str) (l : list str) : str_in s l = false -> s ∉ l.
Proof.
  unfold str_in, str_eqb. induction l as [|x l IH]; simpl.
  - intros _. apply not_elem_of_nil.
  - intros [Hx Hl]%orb_false_elim. apply bool_decide_eq_false in Hx.
    apply not_elem_of_cons. auto.
Qed.

Lemma author_checked (a : str) (b : bool) :
  (str_in a skip_posts || b) = false ->
  let name := if str_in a invalid_authors then py "Unknown" else a in
  (name ∉ invalid_authors) /\ (name ∉ skip_posts).
Proof.
  intros [Hskip _]%orb_false_elim. cbv zeta.
  destruct (str_in a invalid_authors) eqn:Hinv.
  - split; apply str_in_false; vm_compute; reflexivity.
  - split; by apply str_in_false.
Qed.

(** X16.  The author of a post that [parse_modern_post] returns is never
    one of the labels "Online status indicator", "Active" and "Sponsored"
    and never one of the markers of feed noise: such a label is replaced by
    "Unknown", and a node with such a marker for author is not a post. *)
Theorem parse_modern_post_author (rt : Runtime) (article : ElementHandle)
    (p : Post.t) :
  parse_modern_post rt article = Some p ->
  (Author.name (Post.author p) ∉ invalid_authors)
  /\ (Author.name (Post.author p) ∉ skip_posts).
Proof.
  intros H. unfold parse_modern_post in H. traced H.
  all: cbn [Post.author Author.name]; eapply author_checked; eassumption.
Qed.

Lemma parse_modern_post_author_witness :
  exists p, parse_modern_post rt_example node_post = Some p
            /\ (Author.name (Post.author p) ∉ invalid_authors)
            /\ (Author.name (Post.author p) ∉ skip_posts).
Proof.
  eexists. split; [vm_compute; reflexivity|].
  apply (parse_modern_post_author rt_example node_post).
  vm_compute. reflexivity.
Defined.

Lemma mbasic_absolute_http (o : option str) (u : str) :
  mbasic_absolute o = Some u -> u = [] \/ startswith u (py "http") = true.
Proof.
  unfold mbasic_absolute. destruct o as [v|]; [|done].
  destruct (nonempty v) eqn:Hn; simpl.
  - destruct (startswith v (py "http")) eqn:Hs; simpl.
    + intros [= <-]. by right.
    + intros [= <-]. by right.
  - intros [= <-]. left. unfold nonempty in Hn.
    apply negb_false_iff in Hn. by apply bool_decide_eq_true in Hn.
Qed.

(** X17.  The profile address of a record from the mbasic extractors is
    absolute: when the author has one and it is not empty, it starts with
    "http" (a relative address is put after the address of the mbasic
    site). *)
Theorem mbasic_profile_url_absolute (rt : Runtime) (node : ElementHandle)
    (u : str) :
  (forall p, parse_mbasic_post rt node = Some p ->
             Author.profile_url (Post.author p) = Some u ->
             u = [] \/ startswith u (py "http") = true)
  /\ (forall c, parse_mbasic_comment rt node = Some c ->
                Author.profile_url (Comment.author c) = Some u ->
                u = [] \/ startswith u (py "http") = true).
Proof.
  split.
  - intros p H. unfold parse_mbasic_post in H. traced H.
    all: cbn [Post.author Author.profile_url];
      match goal with
      | Hauthor : _ = Ok (_, ?url) |- ?url = Some _ -> _ =>
          ok_inv Hauthor; simplify_eq; try done; apply mbasic_absolute_http
      end.
  - intros c H. unfold parse_mbasic_comment in H. traced H.
    all: cbn [Comment.author Author.profile_url];
      match goal with
      | Hauthor : _ = Ok (_, ?url) |- ?url = Some _ -> _ =>
          ok_inv Hauthor; simplify_eq; try done; apply mbasic_absolute_http
      end.
Qed.

Lemma mbasic_profile_url_absolute_witness :
  exists c, parse_mbasic_comment rt_example node_mbasic_comment = Some c
            /\ Author.profile_url (Comment.author c)
               = Some (py "https://mbasic.facebook.com/jane.doe")
            /\ (py "https://mbasic.facebook.com/jane.doe" = []
                \/ startswith (py "https://mbasic.facebook.com/jane.doe")
                     (py "http") = true).
Proof.
  eexists. split_and!; [vm_compute; reflexivity..|].
  eapply (proj2 (mbasic_profile_url_absolute rt_example node_mbasic_comment _));
    vm_compute; reflexivity.
Defined.

(** *** The counts *)

Lemma total_only_of_total (n : Z) : (0 <= n)%Z -> total_only (Reactions.of_total n).
Proof. by split. Qed.

Lemma total_only_zero : total_only Reactions.zero.
Proof. by split. Qed.

Lemma parse_reactions_text_total_only (text : str) :
  total_only (parse_reactions_text text).
Proof.
  unfold parse_reactions_text. case_bool_decide; [apply total_only_zero|].
  destruct (re_search _ _).
  - apply total_only_of_total, int_nonneg.
  - apply total_only_zero.
Qed.

Lemma post_reactions_from_labels_total_only (l : list ElementHandle)
    (r0 r : Reactions.t) :
  total_only r0 -> post_reactions_from_labels l r0 = Ok r -> total_only r.
Proof.
  revert r0. induction l as [|elem l IH]; intros r0 H0; cbn [post_reactions_from_labels].
  - by intros [= <-].
  - intros H. ok_inv H.
    + injection H as <-. apply parse_reactions_text_total_only.
    + eapply IH; [|done]. apply parse_reactions_text_total_only.
    + by eapply IH.
Qed.

Lemma comment_reactions_from_labels_total_only (l : list ElementHandle)
    (r : Reactions.t) :
  comment_reactions_from_labels l = Ok r -> total_only r.
Proof.
  induction l as [|elem l IH]; cbn [comment_reactions_from_labels].
  - intros [= <-]. apply total_only_zero.
  - intros H. ok_inv H.
    + injection H as <-. apply parse_reactions_text_total_only.
    + by apply IH.
Qed.

Lemma comments_count_from_labels_nonneg (l : list ElementHandle) (n : Z) :
  comments_count_from_labels l = Ok n -> (0 <= n)%Z.
Proof.
  induction l as [|btn l IH]; cbn [comments_count_from_labels].
  - by intros [= <-].
  - intros H. ok_inv H.
    + injection H as <-. apply int_nonneg.
    + by apply IH.
Qed.

Ltac total_only_goal :=
  repeat match goal with
  | H : post_reactions_from_labels _ Reactions.zero = Ok _ |- _ =>
      apply post_reactions_from_labels_total_only in H; [|apply total_only_zero]
  | H : comment_reactions_from_labels _ = Ok _ |- _ =>
      apply comment_reactions_from_labels_total_only in H
  end;
  try match goal with
  | H : _ = Ok ?r |- total_only ?r => ok_inv H; injection H as <-
  end;
  repeat match goal with
  | |- total_only (match ?x with _ => _ end) => destruct x
  end;
  first [ assumption | apply total_only_zero
        | apply parse_reactions_text_total_only
        | apply total_only_of_total, int_nonneg ].

Ltac count_goal :=
  first
    [ eapply comments_count_from_labels_nonneg; eassumption
    | match goal with
      | H : _ = Ok ?n |- (0 <= ?n)%Z =>
          ok_inv H; injection H as <-; first [apply int_nonneg | done]
      end ].

(** X18.  The counts of a record that an extractor returns: the reactions
    carry a total only, which is not negative, with every count by kind 0,
    and the number of comments of a post is not negative. *)
Theorem extractor_counts (rt : Runtime) (node : ElementHandle) :
  (forall p, parse_modern_post rt node = Some p ->
     total_only (Post.reactions p) /\ (0 <= Post.comments_count p)%Z)
  /\ (forall p, parse_mbasic_post rt node = Some p ->
        total_only (Post.reactions p) /\ (0 <= Post.comments_count p)%Z)
  /\ (forall c, parse_modern_comment rt node = Some c ->
        total_only (Comment.reactions c))
  /\ (forall c, parse_mbasic_comment rt node = Some c ->
        total_only (Comment.reactions c)).
Proof.
  split_and!.
  - intros p H. unfold parse_modern_post in H. traced H.
    all: cbn [Post.reactions Post.comments_count]; split;
      [total_only_goal | count_goal].
  - intros p H. unfold parse_mbasic_post in H. traced H.
    all: cbn [Post.reactions Post.comments_count]; split;
      [total_only_goal | count_goal].
  - intros c H. unfold parse_modern_comment in H. traced H.
    all: cbn [Comment.reactions]; total_only_goal.
  - intros c H. unfold parse_mbasic_comment in H. traced H.
    all: cbn [Comment.reactions]; total_only_goal.
Qed.

Lemma extractor_counts_witness :
  exists p, parse_modern_post rt_example node_post = Some p
            /\ Reactions.total (Post.reactions p) = 42%Z
            /\ total_only (Post.reactions p)
            /\ (0 <= Post.comments_count p)%Z.
Proof.
  eexists. split_and!; [vm_compute; reflexivity..| |].
  - apply (proj1 (extractor_counts rt_example node_post)).
    vm_compute. reflexivity.
  - apply (proj1 (extractor_counts rt_example node_post)).
    vm_compute. reflexivity.
Defined.

(** *** The identifier of a modern post and the errors of the helpers *)

Lemma post_id_from_links_quiet (rt : Runtime) (pre l : list ElementHandle) :
  Forall (no_post_id rt) pre ->
  post_id_from_links rt (pre ++ l) None = post_id_from_links rt l None.
Proof.
  induction 1 as [|link pre (href & Hhref & Hnone) _ IH]; [done|].
  cbn [app post_id_from_links]. rewrite Hhref. cbn [mbind exc_bind].
  destruct (truthy href) eqn:Ht; [|done].
  rewrite Hnone by done. cbn [mbind exc_bind truthy from_option]. done.
Qed.

Lemma extract_post_id_nonempty_url (rt : Runtime) (url : str) :
  extract_post_id rt url <> Ok None -> truthy (Some url) = true.
Proof.
  intros H. destruct url as [|c url]; [|done]. by destruct H.
Qed.

Lemma post_id_from_links_raises (rt : Runtime) (link : ElementHandle)
    (rest : list ElementHandle) (url : str) (e : exn) :
  get_attribute link (py "href") = Ok (Some url) ->
  extract_post_id rt url = Raise e ->
  post_id_from_links rt (link :: rest) None = Raise e.
Proof.
  intros Hhref Hraise. cbn [post_id_from_links]. rewrite Hhref.
  cbn [mbind exc_bind]. rewrite (extract_post_id_nonempty_url rt url) by congruence.
  change (default [] (Some url)) with url. by rewrite Hraise.
Qed.

Lemma post_id_from_links_found (rt : Runtime) (link : ElementHandle)
    (rest : list ElementHandle) (url id : str) :
  get_attribute link (py "href") = Ok (Some url) ->
  extract_post_id rt url = Ok (Some id) ->
  post_id_from_links rt (link :: rest) None = Ok (Some id)
  /\ truthy (Some id) = true.
Proof.
  intros Hhref Hid. cbn [post_id_from_links]. rewrite Hhref.
  cbn [mbind exc_bind]. rewrite (extract_post_id_nonempty_url rt url) by congruence.
  change (default [] (Some url)) with url. rewrite Hid. cbn [mbind exc_bind].
  assert (truthy (Some id) = true) as Ht.
  { apply found_id_not_empty in Hid. by destruct id. }
  by rewrite Ht.
Qed.

(** X19.  One address that [urlparse] refuses costs the whole post: when
    the links before some link give no identifier and [extract_post_id]
    raises on the address of that link, [parse_modern_post] returns null,
    whatever else the node holds. *)
Theorem parse_modern_post_drops_on_bad_link (rt : Runtime)
    (article link : ElementHandle) (pre rest : list ElementHandle)
    (url : str) (e : exn) :
  query_selector_all article (py "a[href]") = Ok (pre ++ link :: rest) ->
  Forall (no_post_id rt) pre ->
  get_attribute link (py "href") = Ok (Some url) ->
  extract_post_id rt url = Raise e ->
  parse_modern_post rt article = None.
Proof.
  intros Hlinks Hpre Hhref Hraise.
  destruct (parse_modern_post rt article) as [p|] eqn:H; [exfalso|done].
  unfold parse_modern_post in H. traced H.
  all: match goal with
       | Hq : query_selector_all _ (py "a[href]") = Ok ?l,
         Hid : post_id_from_links _ ?l None = Ok _ |- _ =>
           rewrite Hlinks in Hq; injection Hq as <-;
           rewrite (post_id_from_links_quiet rt pre _ Hpre) in Hid;
           rewrite (post_id_from_links_raises rt link rest url e Hhref Hraise)
             in Hid;
           discriminate Hid
       end.
Qed.

Lemma parse_modern_post_drops_on_bad_link_witness :
  parse_modern_post rt_example node_bad_link = None.
Proof.
  apply (parse_modern_post_drops_on_bad_link rt_example node_bad_link
           (leaf "x" [(py "href", py "http://[")]) [leaf "" []] []
           (py "http://[") ValueError).
  - reflexivity.
  - repeat constructor. exists None. split; [reflexivity|discriminate].
  - reflexivity.
  - reflexivity.
Defined.

(** X20.  The identifier of a post from [parse_modern_post] is the one of
    the first link, in the order of the document, in whose address
    [extract_post_id] finds an identifier. *)
Theorem parse_modern_post_id_first_link (rt : Runtime)
    (article link : ElementHandle) (pre rest : list ElementHandle)
    (url id : str) (p : Post.t) :
  parse_modern_post rt article = Some p ->
  query_selector_all article (py "a[href]") = Ok (pre ++ link :: rest) ->
  Forall (no_post_id rt) pre ->
  get_attribute link (py "href") = Ok (Some url) ->
  extract_post_id rt url = Ok (Some id) ->
  Post.id p = id.
Proof.
  intros H Hlinks Hpre Hhref Hid.
  destruct (post_id_from_links_found rt link rest url id Hhref Hid)
    as [Hfound Ht].
  unfold parse_modern_post in H. traced H.
  all: match goal with
       | Hq : query_selector_all _ (py "a[href]") = Ok ?l,
         Hp : post_id_from_links _ ?l None = Ok _ |- _ =>
           rewrite Hlinks in Hq; injection Hq as <-;
           rewrite (post_id_from_links_quiet rt pre _ Hpre), Hfound in Hp;
           injection Hp as <-
       end.
  all: cbn [Post.id]; by rewrite Ht.
Qed.

Lemma parse_modern_post_id_first_link_witness :
  exists p, parse_modern_post rt_example node_post = Some p
            /\ Post.id p = py "998877".
Proof.
  eexists. split; [vm_compute; reflexivity|].
  apply (parse_modern_post_id_first_link rt_example node_post
           permalink_example [] []
           (py "https://www.facebook.com/groups/g/posts/998877") (py "998877")).
  - vm_compute. reflexivity.
  - reflexivity.
  - constructor.
  - reflexivity.
  - vm_compute. reflexivity.
Defined.

(** X21.  A time that [parse_timestamp] cannot subtract costs the whole
    post: when [parse_timestamp] raises on the text of the time element,
    [parse_mbasic_post] returns null. *)
Theorem parse_mbasic_post_drops_on_bad_time (rt : Runtime)
    (article elem : ElementHandle) (t : str) (e : exn) :
  query_selector article (py "abbr") = Ok (Some elem) ->
  inner_text elem = Ok t ->
  parse_timestamp rt (strip t) = Raise e ->
  parse_mbasic_post rt article = None.
Proof.
  intros Helem Htext Hraise.
  destruct (parse_mbasic_post rt article) as [p|] eqn:H; [exfalso|done].
  unfold parse_mbasic_post in H. traced H.
  all: match goal with
       | Hq : query_selector _ (py "abbr") = Ok ?x,
         Hts : match ?x with _ => _ end = Ok _ |- _ =>
           rewrite Helem in Hq; injection Hq as <-;
           rewrite Htext in Hts; cbn [fmap exc_fmap mbind exc_bind] in Hts;
           rewrite Hraise in Hts; discriminate Hts
       end.
Qed.

Lemma parse_mbasic_post_drops_on_bad_time_witness :
  parse_mbasic_post rt_example node_mbasic_old = None.
Proof.
  apply (parse_mbasic_post_drops_on_bad_time rt_example node_mbasic_old
           (leaf "740000d" []) (py "740000d") OverflowError); reflexivity.
Defined.

(** *** The content of a modern comment *)

Lemma unique_comment_parts_not_author (a : str) (ps : list str) :
  Forall (fun x => x <> a) (unique_comment_parts a ps).
Proof.
  unfold unique_comment_parts.
  assert (forall st : gset str * list str,
            Forall (fun x => x <> a) st.2 ->
            Forall (fun x => x <> a)
              (fold_left
                 (fun st part =>
                    keep_unique_comment a
                      (strip (re_sub see_more_at_end_re [] part)) st)
                 ps st).2) as Hfold.
  { induction ps as [|part ps IH]; intros st Hst; [done|].
    cbn [fold_left]. apply IH. unfold keep_unique_comment.
    destruct st as [seen unique_parts].
    destruct (_ && _) eqn:Hkeep; [|done]. cbn [snd] in *.
    apply Forall_app. split; [done|]. constructor; [|done].
    apply andb_prop in Hkeep as [_ Hne]. apply negb_true_iff in Hne.
    unfold str_eqb in Hne. by apply bool_decide_eq_false in Hne. }
  by apply Hfold.
Qed.

Lemma comment_content_not_author (a : str) (ps lines : list str) :
  let first := default [] (head (unique_comment_parts a ps)) in
  let content :=
    if nonempty first then first else comment_line_fallback a lines in
  negb (nonempty content) = false -> content <> a.
Proof.
  intros first content Hgate. subst content.
  destruct (nonempty first) eqn:Hfirst.
  - subst first. pose proof (unique_comment_parts_not_author a ps) as Hall.
    destruct (unique_comment_parts a ps) as [|x l]; [done|].
    by apply Forall_cons in Hall as [? _].
  - unfold comment_line_fallback in *.
    destruct (find _ lines) as [line|] eqn:Hfind; [|done].
    apply find_some in Hfind as [_ Hline].
    apply andb_prop in Hline as [Hline _]. apply andb_prop in Hline as [Hline _].
    apply andb_prop in Hline as [Hline _]. apply negb_true_iff in Hline.
    unfold str_eqb in Hline. by apply bool_decide_eq_false in Hline.
Qed.

(** X22.  The content of a comment that [parse_modern_comment] returns is
    never the name of its author: a block or a line that reads as the
    author's name is not taken for content. *)
Theorem parse_modern_comment_content_not_author (rt : Runtime)
    (element : ElementHandle) (c : Comment.t) :
  parse_modern_comment rt element = Some c ->
  Comment.content c <> Author.name (Comment.author c).
Proof.
  intros H. unfold parse_modern_comment in H. traced H.
  all: cbn [Comment.content Comment.author Author.name];
    by apply comment_content_not_author.
Qed.

Lemma parse_modern_comment_content_not_author_witness :
  exists c, parse_modern_comment rt_example node_see_more = Some c
            /\ Comment.content c <> Author.name (Comment.author c).
Proof.
  eexists. split; [vm_compute; reflexivity|].
  apply (parse_modern_comment_content_not_author rt_example node_see_more).
  vm_compute. reflexivity.
Defined.

(** *** The loop that removes repeated blocks *)

Lemma keep_unique_step (cleaned : str) (st : gset str * list str)
    (seen_texts : list str) :
  st.1 = list_to_set st.2 ->
  NoDup st.2 ->
  (forall x, x ∈ st.2 <-> x <> [] /\ x ∈ seen_texts) ->
  st.2 `sublist_of` seen_texts ->
  let st' := keep_unique cleaned st in
  st'.1 = list_to_set st'.2
  /\ NoDup st'.2
  /\ (forall x, x ∈ st'.2 <-> x <> [] /\ x ∈ seen_texts ++ [cleaned])
  /\ st'.2 `sublist_of` seen_texts ++ [cleaned].
Proof.
  destruct st as [seen unique_parts]. cbn [fst snd].
  intros Hseen Hnodup Hmem Hsub. unfold keep_unique.
  destruct (nonempty cleaned && negb (bool_decide (cleaned ∈ seen))) eqn:Hkeep;
    cbn [fst snd].
  - apply andb_prop in Hkeep as [Hne Hnew].
    unfold nonempty in Hne. apply negb_true_iff in Hne, Hnew.
    apply bool_decide_eq_false in Hne, Hnew.
    assert (cleaned ∉ unique_parts) as Hfresh.
    { intros Hin. apply Hnew. rewrite Hseen. by apply elem_of_list_to_set. }
    split_and!.
    + rewrite list_to_set_app_L, Hseen. cbn [list_to_set foldr].
      rewrite (right_id_L ∅ (∪)). apply (comm_L (∪)).
    + apply NoDup_app. split_and!; [done| |apply NoDup_singleton].
      intros x Hx ->%list_elem_of_singleton. done.
    + intros x. rewrite !elem_of_app, Hmem, !list_elem_of_singleton.
      split; [intros [[? ?]| ->]; auto | intros [? [?| ->]]; auto].
    + by apply sublist_app.
  - split_and!; [done..| |by apply sublist_inserts_r].
    intros x. rewrite elem_of_app, Hmem, list_elem_of_singleton.
    split; [intros [? ?]; auto|]. intros [Hx [?| ->]]; [done|].
    apply andb_false_iff in Hkeep as [Hempty|Hold].
    + unfold nonempty in Hempty. apply negb_false_iff in Hempty.
      by apply bool_decide_eq_true in Hempty.
    + apply negb_false_iff, bool_decide_eq_true in Hold.
      rewrite Hseen in Hold. apply elem_of_list_to_set in Hold.
      by apply Hmem in Hold.
Qed.

(** X23.  The loop of [parse_modern_post] that removes repeated blocks: the
    list it builds has no text twice, holds exactly the cleaned blocks that
    are not empty, and keeps them in the order of the blocks. *)
Theorem unique_post_parts_dedupes (content_parts : list str) :
  NoDup (unique_post_parts content_parts)
  /\ (forall x, x ∈ unique_post_parts content_parts
                <-> x <> [] /\ x ∈ map clean_post_part content_parts)
  /\ unique_post_parts content_parts
       `sublist_of` map clean_post_part content_parts.
Proof.
  unfold unique_post_parts.
  assert (forall (ps : list str) (st : gset str * list str) (seen_texts : list str),
            st.1 = list_to_set st.2 -> NoDup st.2 ->
            (forall x, x ∈ st.2 <-> x <> [] /\ x ∈ seen_texts) ->
            st.2 `sublist_of` seen_texts ->
            let st' := fold_left
                         (fun st part => keep_unique (clean_post_part part) st)
                         ps st in
            NoDup st'.2
            /\ (forall x, x ∈ st'.2
                          <-> x <> [] /\ x ∈ seen_texts ++ map clean_post_part ps)
            /\ st'.2 `sublist_of` seen_texts ++ map clean_post_part ps) as Hfold.
  { induction ps as [|part ps IH]; intros st seen_texts Hseen Hnodup Hmem Hsub.
    - cbn [fold_left map]. rewrite app_nil_r. done.
    - cbn [fold_left map].
      destruct (keep_unique_step (clean_post_part part) st seen_texts
                  Hseen Hnodup Hmem Hsub) as (Hseen' & Hnodup' & Hmem' & Hsub').
      specialize (IH _ _ Hseen' Hnodup' Hmem' Hsub').
      by rewrite <- app_assoc in IH. }
  apply (Hfold content_parts (∅, []) []); cbn [fst snd].
  - done.
  - apply NoDup_nil_2.
  - intros x. split; [by intros ?%elem_of_nil | by intros [_ ?%elem_of_nil]].
  - done.
Qed.

(** *** The gates on the content *)

(** X24.  The modern extractors return no record without content:
    [parse_modern_post] returns null rather than a post whose content has
    fewer than 5 characters, and [parse_modern_comment] returns null rather
    than a comment whose content is empty. *)
Theorem modern_content_gates (rt : Runtime) (node : ElementHandle) :
  (forall p, parse_modern_post rt node = Some p ->
             (5 <= length (Post.content p))%nat)
  /\ (forall c, parse_modern_comment rt node = Some c ->
                Comment.content c <> []).
Proof. apply content_gates. Qed.

Lemma modern_content_gates_witness :
  exists p, parse_modern_post rt_example node_post = Some p
            /\ (5 <= length (Post.content p))%nat.
Proof.
  eexists. split; [vm_compute; reflexivity|].
  apply (proj1 (modern_content_gates rt_example node_post)).
  vm_compute. reflexivity.
Defined.

(** *** The identifier of a modern comment *)

Lemma parse_modern_comment_hashed_id (rt : Runtime) (element : ElementHandle)
    (c : Comment.t) :
  parse_modern_comment rt element = Some c ->
  Comment.id c = hashed_id rt "comment" 30 (Comment.content c).
Proof.
  intros H. unfold parse_modern_comment in H. traced H.
  all: reflexivity.
Qed.

(** X25.  The identifier of a comment from [parse_modern_comment] depends
    on nothing but the first 30 characters of its content: two comments
    whose contents agree there, whoever wrote them and wherever they stand,
    get the same identifier. *)
Theorem parse_modern_comment_id_collides (rt : Runtime)
    (e1 e2 : ElementHandle) (c1 c2 : Comment.t) :
  parse_modern_comment rt e1 = Some c1 ->
  parse_modern_comment rt e2 = Some c2 ->
  take 30 (Comment.content c1) = take 30 (Comment.content c2) ->
  Comment.id c1 = Comment.id c2.
Proof.
  intros H1%parse_modern_comment_hashed_id H2%parse_modern_comment_hashed_id Heq.
  rewrite H1, H2. unfold hashed_id. by rewrite Heq.
Qed.

Lemma parse_modern_comment_id_collides_witness :
  exists c1 c2,
    parse_modern_comment rt_example node_see_more = Some c1
    /\ parse_modern_comment rt_example
         (Element 21 true (py "Bob ab See more") []
            [(py "strong", [leaf "Bob" []]);
             (attr_selector "div" "dir=" "auto", [leaf "ab See more" []])]) = Some c2
    /\ Comment.id c1 = Comment.id c2.
Proof.
  do 2 eexists. split_and!; [vm_compute; reflexivity..|].
  eapply (parse_modern_comment_id_collides rt_example node_see_more
            (Element 21 true (py "Bob ab See more") []
            [(py "strong", [leaf "Bob" []]);
             (attr_selector "div" "dir=" "auto", [leaf "ab See more" []])]));
    vm_compute; reflexivity.
Defined.
